(** * Azure Updates Hub: the derivation, filter and grouping logic of [App.tsx]

    A shallow embedding of the logic-bearing part of [src/App.tsx]
    ([getWeekRange], [allDomains], [availableWeeks], [filteredUpdates],
    [groupedByMonth], [handleClearFilters], [hasActiveFilters], the badge
    count, [statistics], the category buttons, the choice of what the main
    area shows, the truncated description of [UpdateCard], and the filter of
    the earlier revision of [App]), over a model of the JavaScript run-time
    pieces the code calls: strings ([trim], [toLowerCase], [includes], the
    default sort order), [Date] (ECMAScript time values, the local-time
    getters and setters, [toISOString], [toLocaleDateString]), the
    containers ([Set], [Map], plain objects, [Array.prototype.sort]) and
    React's state setters and [useMemo].

    Modelling choices, fixed once here:
    - a string is a sequence of code units in the range 0..255 (Rocq's
      [string]); on that range [toLowerCase], [trim] and the code-unit order
      are exactly the ones of ECMAScript;
    - a time value is an integer number of milliseconds since the epoch, a
      [Date] is [option Z] with [None] for the invalid date (NaN), and every
      constructor and setter applies [TimeClip];
    - the host's local time zone is a fixed offset [LocalTZA] (no daylight
      saving transition), and the host's date parser is any function
      [DateParse]; both are section variables;
    - an exception ([toISOString] on an invalid date) is [None] in the
      option monad. *)

From Stdlib Require Import ZArith NArith List String Ascii Bool Lia.
From Stdlib Require Import Sorted Permutation DecimalString.
From Stdlib Require DecimalPos DecimalN.
Import ListNotations.

Set Implicit Arguments.

(* ------------------------------------------------------------------ *)
(** ** JavaScript strings *)

Module JsString.

Local Open Scope N_scope.

Definition codeUnit (c : ascii) : N := N_of_ascii c.

(** WhiteSpace and LineTerminator code units below 256: TAB, LF, VT, FF,
    CR, SP and NBSP. *)
Definition isWhiteSpace (c : ascii) : bool :=
  let n := codeUnit c in
  ((9 <=? n) && (n <=? 13)) || (n =? 32) || (n =? 160).

Fixpoint trimStart (s : string) : string :=
  match s with
  | EmptyString => EmptyString
  | String c s' => if isWhiteSpace c then trimStart s' else s
  end.

Fixpoint trimEnd (s : string) : string :=
  match s with
  | EmptyString => EmptyString
  | String c s' =>
      match trimEnd s' with
      | EmptyString => if isWhiteSpace c then EmptyString else String c EmptyString
      | t => String c t
      end
  end.

(** [String.prototype.trim] *)
Definition trim (s : string) : string := trimEnd (trimStart s).

(** Letters with a lower-case form: A..Z, and U+00C0..U+00DE but the
    multiplication sign U+00D7. *)
Definition isUpper (c : ascii) : bool :=
  let n := codeUnit c in
  ((65 <=? n) && (n <=? 90)) ||
  ((192 <=? n) && (n <=? 222) && negb (n =? 215)).

Definition toLowerChar (c : ascii) : ascii :=
  if isUpper c then ascii_of_N (codeUnit c + 32) else c.

(** [String.prototype.toLowerCase] *)
Fixpoint toLowerCase (s : string) : string :=
  match s with
  | EmptyString => EmptyString
  | String c s' => String (toLowerChar c) (toLowerCase s')
  end.

Fixpoint startsWith (s p : string) : bool :=
  match p, s with
  | EmptyString, _ => true
  | String _ _, EmptyString => false
  | String a p', String b s' => Ascii.eqb a b && startsWith s' p'
  end.

(** [String.prototype.includes]: [sub] occurs in [s] at some position. *)
Fixpoint includes (s sub : string) : bool :=
  startsWith s sub ||
  match s with
  | EmptyString => false
  | String _ s' => includes s' sub
  end.

(** The relational comparison [x < y] of two strings: lexicographic on
    code units, a proper prefix being smaller. *)
Fixpoint lt (x y : string) : bool :=
  match x, y with
  | _, EmptyString => false
  | EmptyString, String _ _ => true
  | String a x', String b y' =>
      if codeUnit a <? codeUnit b then true
      else if codeUnit b <? codeUnit a then false
      else lt x' y'
  end.

(** ToBoolean of a string: only the empty string is falsy. *)
Definition truthy (s : string) : bool :=
  match s with EmptyString => false | String _ _ => true end.

(** Two strings that differ only in letter case: the same length, and at
    each position the same code unit or an upper-case letter against its
    lower-case form. *)
Definition sameLetter (a b : ascii) : Prop :=
  a = b \/
  (isUpper a = true /\ codeUnit b = codeUnit a + 32) \/
  (isUpper b = true /\ codeUnit a = codeUnit b + 32).

Inductive sameModuloCase : string -> string -> Prop :=
| smc_nil : sameModuloCase EmptyString EmptyString
| smc_cons a b s t :
    sameLetter a b -> sameModuloCase s t ->
    sameModuloCase (String a s) (String b t).

Fixpoint allWhiteSpace (s : string) : bool :=
  match s with
  | EmptyString => true
  | String c s' => isWhiteSpace c && allWhiteSpace s'
  end.

End JsString.

(* ------------------------------------------------------------------ *)
(** ** ECMAScript time values and the [Date] object *)

Module JsDate.

Local Open Scope Z_scope.

Definition msPerSecond : Z := 1000.
Definition msPerMinute : Z := 60000.
Definition msPerHour : Z := 3600000.
Definition msPerDay : Z := 86400000.

Definition Day (t : Z) : Z := t / msPerDay.
Definition TimeWithinDay (t : Z) : Z := t mod msPerDay.

Definition DaysInYear (y : Z) : Z :=
  if negb (y mod 4 =? 0) then 365
  else if negb (y mod 100 =? 0) then 366
  else if negb (y mod 400 =? 0) then 365
  else 366.

Definition DayFromYear (y : Z) : Z :=
  365 * (y - 1970) + (y - 1969) / 4 - (y - 1901) / 100 + (y - 1601) / 400.

Definition TimeFromYear (y : Z) : Z := msPerDay * DayFromYear y.

(** The largest [y] with [TimeFromYear y <= t]: an estimate from the mean
    length of the Gregorian year, corrected by at most one
    ([YearFromTime_spec] below). *)
Definition YearFromTime (t : Z) : Z :=
  let d := Day t in
  let y := 1970 + (400 * d) / 146097 in
  if DayFromYear (y + 1) <=? d then y + 1
  else if DayFromYear y <=? d then y
  else y - 1.

Definition InLeapYear (t : Z) : Z :=
  if DaysInYear (YearFromTime t) =? 366 then 1 else 0.

Definition DayWithinYear (t : Z) : Z := Day t - DayFromYear (YearFromTime t).

Definition MonthFromTime (t : Z) : Z :=
  let d := DayWithinYear t in
  let l := InLeapYear t in
  if d <? 31 then 0
  else if d <? 59 + l then 1
  else if d <? 90 + l then 2
  else if d <? 120 + l then 3
  else if d <? 151 + l then 4
  else if d <? 181 + l then 5
  else if d <? 212 + l then 6
  else if d <? 243 + l then 7
  else if d <? 273 + l then 8
  else if d <? 304 + l then 9
  else if d <? 334 + l then 10
  else 11.

Definition DateFromTime (t : Z) : Z :=
  let d := DayWithinYear t in
  let l := InLeapYear t in
  match MonthFromTime t with
  | 0 => d + 1
  | 1 => d - 30
  | 2 => d - 58 - l
  | 3 => d - 89 - l
  | 4 => d - 119 - l
  | 5 => d - 150 - l
  | 6 => d - 180 - l
  | 7 => d - 211 - l
  | 8 => d - 242 - l
  | 9 => d - 272 - l
  | 10 => d - 303 - l
  | _ => d - 333 - l
  end.

Definition WeekDay (t : Z) : Z := (Day t + 4) mod 7.

Definition HourFromTime (t : Z) : Z := (t / msPerHour) mod 24.
Definition MinFromTime (t : Z) : Z := (t / msPerMinute) mod 60.
Definition SecFromTime (t : Z) : Z := (t / msPerSecond) mod 60.
Definition msFromTime (t : Z) : Z := t mod msPerSecond.

Definition MakeTime (hour min sec ms : Z) : Z :=
  hour * msPerHour + min * msPerMinute + sec * msPerSecond + ms.

(** Days of the year [y] before its month [mn] (0 = January). *)
Definition daysBeforeMonth (y mn : Z) : Z :=
  let l := if DaysInYear y =? 366 then 1 else 0 in
  match mn with
  | 0 => 0
  | 1 => 31
  | 2 => 59 + l
  | 3 => 90 + l
  | 4 => 120 + l
  | 5 => 151 + l
  | 6 => 181 + l
  | 7 => 212 + l
  | 8 => 243 + l
  | 9 => 273 + l
  | 10 => 304 + l
  | _ => 334 + l
  end.

(** [MakeDay]: the day number of the first of month [mn] of year [ym],
    plus [date - 1]. *)
Definition MakeDay (year month date : Z) : Z :=
  let ym := year + month / 12 in
  let mn := month mod 12 in
  DayFromYear ym + daysBeforeMonth ym mn + date - 1.

Definition MakeDate (day time : Z) : Z := day * msPerDay + time.

Definition maxTime : Z := 8640000000000000.

Definition TimeClip (t : Z) : option Z :=
  if Z.abs t >? maxTime then None else Some t.

(** A [Date] object holds a time value or NaN. *)
Definition Date : Type := option Z.

(** A Number that is an integer or NaN, as the getters return it. *)
Definition Num : Type := option Z.

Definition numAdd (a b : Num) : Num :=
  match a, b with Some x, Some y => Some (x + y) | _, _ => None end.

Definition numSub (a b : Num) : Num :=
  match a, b with Some x, Some y => Some (x - y) | _, _ => None end.

(** [a >= b] and [a <= b] on dates compare the time values; a comparison
    with NaN is false. *)
Definition dateGe (a b : Date) : bool :=
  match a, b with Some x, Some y => y <=? x | _, _ => false end.

Definition dateLe (a b : Date) : bool :=
  match a, b with Some x, Some y => x <=? y | _, _ => false end.

Definition getTime (d : Date) : Num := d.

(** *** Decimal digits *)

Definition digitChar (n : Z) : ascii := ascii_of_N (48 + Z.to_N n).

(** The [w] low decimal digits of [n], most significant first. *)
Fixpoint padDigits (w : nat) (n : Z) : string :=
  match w with
  | O => EmptyString
  | S w' => (padDigits w' (n / 10) ++ String (digitChar (n mod 10)) EmptyString)%string
  end.

(** The decimal numeral of a natural number, without padding. *)
Definition decimal (n : Z) : string :=
  NilZero.string_of_uint (N.to_uint (Z.to_N n)).

Definition monthLong (m : Z) : string :=
  match m with
  | 0 => "January" | 1 => "February" | 2 => "March" | 3 => "April"
  | 4 => "May" | 5 => "June" | 6 => "July" | 7 => "August"
  | 8 => "September" | 9 => "October" | 10 => "November" | _ => "December"
  end%string.

Definition monthShort (m : Z) : string :=
  match m with
  | 0 => "Jan" | 1 => "Feb" | 2 => "Mar" | 3 => "Apr"
  | 4 => "May" | 5 => "Jun" | 6 => "Jul" | 7 => "Aug"
  | 8 => "Sep" | 9 => "Oct" | 10 => "Nov" | _ => "Dec"
  end%string.

(** The year as a date format prints it when no era is asked for: a year
    [y <= 0] is printed as [1 - y]. *)
Definition eraYear (y : Z) : Z := if y <=? 0 then 1 - y else y.

(** The year field of [toISOString]: four digits for 0..9999, otherwise a
    sign and six digits. *)
Definition isoYear (y : Z) : string :=
  if (0 <=? y) && (y <=? 9999) then padDigits 4 y
  else String.append (if y <? 0 then "-"%string else "+"%string)
                     (padDigits 6 (Z.abs y)).

Definition isoString (t : Z) : string :=
  (isoYear (YearFromTime t) ++ "-" ++ padDigits 2 (MonthFromTime t + 1) ++ "-" ++
   padDigits 2 (DateFromTime t) ++ "T" ++ padDigits 2 (HourFromTime t) ++ ":" ++
   padDigits 2 (MinFromTime t) ++ ":" ++ padDigits 2 (SecFromTime t) ++ "." ++
   padDigits 3 (msFromTime t) ++ "Z")%string.

(** [Date.prototype.toISOString]: UTC fields; a RangeError ([None]) on an
    invalid date. *)
Definition toISOString (d : Date) : option string :=
  match d with
  | Some t => Some (isoString t)
  | None => None
  end.

Section LocalZone.

(** The offset of the host's local time zone, in milliseconds. *)
Variable LocalTZA : Z.

Definition LocalTime (t : Z) : Z := t + LocalTZA.
Definition UTC (t : Z) : Z := t - LocalTZA.

Definition getDay (d : Date) : Num :=
  match d with Some t => Some (WeekDay (LocalTime t)) | None => None end.

Definition getDate (d : Date) : Num :=
  match d with Some t => Some (DateFromTime (LocalTime t)) | None => None end.

(** [Date.prototype.setDate]: the date object after the call. *)
Definition setDate (d : Date) (date : Num) : Date :=
  match d, date with
  | Some tv, Some dt =>
      let t := LocalTime tv in
      let newDate :=
        MakeDate (MakeDay (YearFromTime t) (MonthFromTime t) dt) (TimeWithinDay t) in
      TimeClip (UTC newDate)
  | _, _ => None
  end.

(** [Date.prototype.setHours] with its four arguments. *)
Definition setHours (d : Date) (hour min sec ms : Z) : Date :=
  match d with
  | Some tv =>
      let t := LocalTime tv in
      let date := MakeDate (Day t) (MakeTime hour min sec ms) in
      TimeClip (UTC date)
  | None => None
  end.

Definition invalidDate : string := "Invalid Date".

(** [toLocaleDateString('en-US', { month: 'short', day: 'numeric' })] *)
Definition toLocaleDateString_monthDay (d : Date) : string :=
  match d with
  | Some tv =>
      let t := LocalTime tv in
      (monthShort (MonthFromTime t) ++ " " ++ decimal (DateFromTime t))%string
  | None => invalidDate
  end.

(** [toLocaleDateString('en-US', { month: 'short', day: 'numeric', year: 'numeric' })] *)
Definition toLocaleDateString_monthDayYear (d : Date) : string :=
  match d with
  | Some tv =>
      let t := LocalTime tv in
      (monthShort (MonthFromTime t) ++ " " ++ decimal (DateFromTime t) ++ ", " ++
       decimal (eraYear (YearFromTime t)))%string
  | None => invalidDate
  end.

(** [toLocaleDateString('en-US', { year: 'numeric', month: 'long' })] *)
Definition toLocaleDateString_yearMonth (d : Date) : string :=
  match d with
  | Some tv =>
      let t := LocalTime tv in
      (monthLong (MonthFromTime t) ++ " " ++ decimal (eraYear (YearFromTime t)))%string
  | None => invalidDate
  end.

End LocalZone.

End JsDate.

Import JsDate.
Open Scope string_scope.
Open Scope list_scope.
Open Scope Z_scope.

(* ------------------------------------------------------------------ *)
(** ** Arrays, [Set], [Map] and plain objects

    A [Set], a [Map] and a plain object with non-numeric keys all
    enumerate in insertion order: they are lists without repetition, new
    members going to the end. *)

Section Containers.

Variable A : Type.

(** [Array.prototype.sort] with a consistent comparator is determined by
    the comparator and by stability: a stable insertion sort.  [x] goes
    before the first [y] that it does not follow. *)
Fixpoint insertBy (cmp : A -> A -> Z) (x : A) (l : list A) : list A :=
  match l with
  | [] => [x]
  | y :: l' => if cmp x y <=? 0 then x :: l else y :: insertBy cmp x l'
  end.

Definition sortBy (cmp : A -> A -> Z) (l : list A) : list A :=
  fold_right (insertBy cmp) [] l.

(** [Set.prototype.add], for the equality [eqb] of the members. *)
Definition setAdd (eqb : A -> A -> bool) (s : list A) (x : A) : list A :=
  if existsb (eqb x) s then s else s ++ [x].

(** [o[k]] on a plain object or [Map.prototype.get]. *)
Fixpoint objGet (o : list (string * A)) (k : string) : option A :=
  match o with
  | [] => None
  | (k', v) :: o' => if String.eqb k' k then Some v else objGet o' k
  end.

(** [o[k] = v] or [Map.prototype.set]: a present key keeps its place. *)
Fixpoint objSet (o : list (string * A)) (k : string) (v : A) : list (string * A) :=
  match o with
  | [] => [(k, v)]
  | (k', v') :: o' =>
      if String.eqb k' k then (k, v) :: o' else (k', v') :: objSet o' k v
  end.

Definition mapHas (o : list (string * A)) (k : string) : bool :=
  match objGet o k with Some _ => true | None => false end.

End Containers.

(** The comparator of the default sort: by the strings of the elements. *)
Definition sortCompare (x y : string) : Z :=
  if JsString.lt x y then -1 else if JsString.lt y x then 1 else 0.

(** A comparator's result: NaN counts as 0. *)
Definition cmpResult (v : Num) : Z :=
  match v with Some z => z | None => 0 end.

(* ------------------------------------------------------------------ *)
(** ** The data model ([lib/types.ts]) *)

Inductive UpdateStatus : Type := GA | Preview | Deprecated | Retired | New.

Inductive DomainCategory : Type :=
| Compute
| Networking
| Storage
| Databases
| AI_Machine_Learning
| Security
| Developer_Tools
| Integration
| Analytics
| Containers
| Management
| Web
| IoT
| Mixed_Reality.

(** The string each member of the union is at run time. *)
Definition domainString (d : DomainCategory) : string :=
  match d with
  | Compute => "Compute"
  | Networking => "Networking"
  | Storage => "Storage"
  | Databases => "Databases"
  | AI_Machine_Learning => "AI + Machine Learning"
  | Security => "Security"
  | Developer_Tools => "Developer Tools"
  | Integration => "Integration"
  | Analytics => "Analytics"
  | Containers => "Containers"
  | Management => "Management"
  | Web => "Web"
  | IoT => "IoT"
  | Mixed_Reality => "Mixed Reality"
  end.

(** [===] and SameValueZero on two categories: equality of their strings. *)
Definition domainEqb (a b : DomainCategory) : bool :=
  String.eqb (domainString a) (domainString b).

Record AzureUpdate : Type := {
  id : string;
  title : string;
  description : string;
  domain : list DomainCategory;
  status : UpdateStatus;
  date : string;
  link : option string
}.

Inductive ViewMode : Type := grid | timeline.

(** What [getWeekRange] returns. *)
Record WeekRange : Type := {
  start : Date;
  end_ : Date;
  label : string
}.

(** An element of [availableWeeks]: [{ key, ...week }]. *)
Record WeekEntry : Type := {
  key : string;
  week : WeekRange
}.

(** The state hooks of [App]. *)
Record AppState : Type := {
  updates : list AzureUpdate;
  searchQuery : string;
  selectedDomain : option DomainCategory;
  selectedWeek : string;
  viewMode : ViewMode;
  showFilters : bool
}.

(** A call of one of the state setters. *)
Inductive SetState : Type :=
| setSearchQuery (v : string)
| setSelectedDomain (v : option DomainCategory)
| setSelectedWeek (v : string)
| setViewMode (v : ViewMode)
| setShowFilters (v : bool).

(* ------------------------------------------------------------------ *)
(** ** A date parser for the examples

    The date-only form [YYYY-MM-DD] of the Date Time String Format, read as
    UTC midnight; every other string is an invalid date.  The development
    is over an arbitrary parser, this one instantiates it. *)

Module IsoDate.

Definition digitVal (c : ascii) : option Z :=
  let n := Z.of_N (N_of_ascii c) in
  if (48 <=? n) && (n <=? 57) then Some (n - 48) else None.

Fixpoint digitsVal (s : string) (acc : Z) : option Z :=
  match s with
  | EmptyString => Some acc
  | String c s' =>
      match digitVal c with
      | Some d => digitsVal s' (10 * acc + d)
      | None => None
      end
  end.

Definition daysInMonth (y m : Z) : Z :=
  if m =? 12 then 31 else daysBeforeMonth y m - daysBeforeMonth y (m - 1).

Definition parse (s : string) : option Z :=
  if Nat.eqb (String.length s) 10 &&
     String.eqb (substring 4 1 s) "-" && String.eqb (substring 7 1 s) "-"
  then
    match digitsVal (substring 0 4 s) 0,
          digitsVal (substring 5 2 s) 0,
          digitsVal (substring 8 2 s) 0 with
    | Some y, Some m, Some d =>
        if (1 <=? m) && (m <=? 12) && (1 <=? d) && (d <=? daysInMonth y m)
        then Some (MakeDate (MakeDay y (m - 1) d) 0)
        else None
    | _, _, _ => None
    end
  else None.

End IsoDate.

(* ------------------------------------------------------------------ *)
(** ** [App.tsx] *)

Section App.

(** The host: its time zone offset and its [Date.parse]. *)
Variable LocalTZA : Z.
Variable DateParse : string -> option Z.

(** [new Date(s)] for a string [s]. *)
Definition newDate (s : string) : Date :=
  match DateParse s with
  | Some tv => TimeClip tv
  | None => None
  end.

Definition getWeekRange (date : Date) : WeekRange :=
  let day := getDay LocalTZA date in
  let diff := numSub (getDate LocalTZA date) day in
  let start0 := date in
  let start1 := setDate LocalTZA start0 diff in
  let start2 := setHours LocalTZA start1 0 0 0 0 in
  let end0 := start2 in
  let end1 := setDate LocalTZA end0 (numAdd (getDate LocalTZA start2) (Some 6)) in
  let end2 := setHours LocalTZA end1 23 59 59 999 in
  let startStr := toLocaleDateString_monthDay LocalTZA start2 in
  let endStr := toLocaleDateString_monthDayYear LocalTZA end2 in
  {| start := start2; end_ := end2; label := (startStr ++ " - " ++ endStr)%string |}.

(** [allDomains]: the members of a [Set] filled by two nested [forEach],
    then sorted by the default order. *)
Definition allDomains (updates : list AzureUpdate) : list DomainCategory :=
  let domains :=
    fold_left
      (fun domains update => fold_left (setAdd domainEqb) (domain update) domains)
      updates [] in
  sortBy (fun x y => sortCompare (domainString x) (domainString y)) domains.

(** One turn of the [forEach] of [availableWeeks]; [None] once
    [toISOString] has thrown. *)
Definition weeksStep (weeks : option (list (string * WeekRange))) (update : AzureUpdate)
  : option (list (string * WeekRange)) :=
  match weeks with
  | None => None
  | Some weeks =>
      let date := newDate (date update) in
      let week := getWeekRange date in
      match toISOString (start week) with
      | None => None
      | Some weekKey =>
          Some (if negb (mapHas weeks weekKey) then weeks ++ [(weekKey, week)] else weeks)
      end
  end.

Definition availableWeeks (updates : list AzureUpdate) : option (list WeekEntry) :=
  match fold_left weeksStep updates (Some []) with
  | None => None
  | Some weeks =>
      let sorted :=
        sortBy
          (fun a b =>
             cmpResult (numSub (getTime (start (snd b))) (getTime (start (snd a)))))
          weeks in
      Some (map (fun e => {| key := fst e; week := snd e |}) sorted)
  end.

Definition matchesSearch (searchQuery : string) (update : AzureUpdate) : bool :=
  String.eqb (JsString.trim searchQuery) "" ||
  JsString.includes (JsString.toLowerCase (title update)) (JsString.toLowerCase searchQuery) ||
  JsString.includes (JsString.toLowerCase (description update)) (JsString.toLowerCase searchQuery).

(** [!selectedDomain || update.domain.includes(selectedDomain)] *)
Definition matchesDomain (selectedDomain : option DomainCategory) (update : AzureUpdate) : bool :=
  match selectedDomain with
  | None => true
  | Some d => negb (JsString.truthy (domainString d)) || existsb (domainEqb d) (domain update)
  end.

Definition matchesWeek (selectedWeek : string) (availableWeeks : list WeekEntry)
    (update : AzureUpdate) : bool :=
  if negb (String.eqb selectedWeek "all") then
    let updateDate := newDate (date update) in
    match find (fun w => String.eqb (key w) selectedWeek) availableWeeks with
    | Some selectedWeekData =>
        dateGe updateDate (start (week selectedWeekData)) &&
        dateLe updateDate (end_ (week selectedWeekData))
    | None => true
    end
  else true.

Definition filteredUpdates (updates : list AzureUpdate) (searchQuery : string)
    (selectedDomain : option DomainCategory) (selectedWeek : string)
    (availableWeeks : list WeekEntry) : list AzureUpdate :=
  filter
    (fun update =>
       matchesSearch searchQuery update &&
       matchesDomain selectedDomain update &&
       matchesWeek selectedWeek availableWeeks update)
    updates.

Definition monthKey (update : AzureUpdate) : string :=
  toLocaleDateString_yearMonth LocalTZA (newDate (date update)).

(** One turn of the [forEach] of [groupedByMonth]: create the group when
    [groups[monthKey]] is falsy (absent: an array is truthy), then push. *)
Definition groupStep (groups : list (string * list AzureUpdate)) (update : AzureUpdate)
  : list (string * list AzureUpdate) :=
  let k := monthKey update in
  let groups1 :=
    match objGet groups k with
    | None => objSet groups k []
    | Some _ => groups
    end in
  match objGet groups1 k with
  | Some l => objSet groups1 k (l ++ [update])
  | None => groups1
  end.

Definition groupedByMonth (filteredUpdates : list AzureUpdate)
  : list (string * list AzureUpdate) :=
  fold_left groupStep filteredUpdates [].

End App.

(** *** State and event handlers *)

Definition applySet (s : AppState) (a : SetState) : AppState :=
  match a with
  | setSearchQuery v =>
      {| updates := updates s; searchQuery := v; selectedDomain := selectedDomain s;
         selectedWeek := selectedWeek s; viewMode := viewMode s; showFilters := showFilters s |}
  | setSelectedDomain v =>
      {| updates := updates s; searchQuery := searchQuery s; selectedDomain := v;
         selectedWeek := selectedWeek s; viewMode := viewMode s; showFilters := showFilters s |}
  | setSelectedWeek v =>
      {| updates := updates s; searchQuery := searchQuery s; selectedDomain := selectedDomain s;
         selectedWeek := v; viewMode := viewMode s; showFilters := showFilters s |}
  | setViewMode v =>
      {| updates := updates s; searchQuery := searchQuery s; selectedDomain := selectedDomain s;
         selectedWeek := selectedWeek s; viewMode := v; showFilters := showFilters s |}
  | setShowFilters v =>
      {| updates := updates s; searchQuery := searchQuery s; selectedDomain := selectedDomain s;
         selectedWeek := selectedWeek s; viewMode := viewMode s; showFilters := v |}
  end.

(** An event handler is the setter calls it makes, in order. *)
Definition handleClearFilters : list SetState :=
  [setSearchQuery ""; setSelectedDomain None; setSelectedWeek "all"].

(** The states that get rendered when a handler runs from state [s]: the
    setter calls of one event handler are batched, the queue is applied in
    order and the component renders once, with the result. *)
Definition rendersAfter (s : AppState) (handler : list SetState) : list AppState :=
  [fold_left applySet handler s].

Definition hasActiveFilters (s : AppState) : bool :=
  negb (String.eqb (JsString.trim (searchQuery s)) "") ||
  (match selectedDomain s with Some _ => true | None => false end) ||
  negb (String.eqb (selectedWeek s) "all").

(** The number in the badge:
    [(searchQuery ? 1 : 0) + (selectedDomain ? 1 : 0) + (selectedWeek !== 'all' ? 1 : 0)] *)
Definition activeFilterCount (s : AppState) : Z :=
  (if JsString.truthy (searchQuery s) then 1 else 0) +
  (match selectedDomain s with
   | Some d => if JsString.truthy (domainString d) then 1 else 0
   | None => 0
   end) +
  (if negb (String.eqb (selectedWeek s) "all") then 1 else 0).

(** The badge itself: rendered only when [hasActiveFilters]. *)
Definition filterBadge (s : AppState) : option Z :=
  if hasActiveFilters s then Some (activeFilterCount s) else None.


(* ------------------------------------------------------------------ *)
(** ** The example collection of the specification *)

Module Sample.

Definition record1 : AzureUpdate :=
  {| id := "1"; title := "Azure Kubernetes Service update"; description := "";
     domain := [Containers]; status := GA; date := "2024-03-05"; link := None |}.

Definition record2 : AzureUpdate :=
  {| id := "2"; title := "Cosmos DB preview"; description := "";
     domain := [Databases]; status := Preview; date := "2024-03-12"; link := None |}.

Definition records : list AzureUpdate := [record1; record2].

(** A record whose texts hold no white space. *)
Definition record3 : AzureUpdate :=
  {| id := "3"; title := "Bastion"; description := "Retired";
     domain := [Networking; Security]; status := Retired; date := "2024-03-05";
     link := None |}.

(** The week buckets of [records] for a host on UTC. *)
Definition weeks : list WeekEntry :=
  match availableWeeks 0 IsoDate.parse records with
  | Some ws => ws
  | None => []
  end.

Definition state : AppState :=
  {| updates := records; searchQuery := "x"; selectedDomain := Some Compute;
     selectedWeek := "2024-03-10T00:00:00.000Z"; viewMode := timeline;
     showFilters := true |}.

(** Two states with the same records and criteria, and different view
    settings. *)
Definition searching : AppState :=
  {| updates := records; searchQuery := "cosmos"; selectedDomain := None;
     selectedWeek := "all"; viewMode := grid; showFilters := true |}.

Definition searchingTimeline : AppState :=
  {| updates := records; searchQuery := "cosmos"; selectedDomain := None;
     selectedWeek := "all"; viewMode := timeline; showFilters := false |}.

(** A record whose date does not parse. *)
Definition undated : AzureUpdate :=
  {| id := "4"; title := "Quantum preview"; description := "";
     domain := [Compute]; status := New; date := "soon"; link := None |}.

(** Two records dated in March 2024, and two dated in March of the years
    0 and 1. *)
Definition marchFirst : AzureUpdate :=
  {| id := "5"; title := "Storage tiering"; description := "";
     domain := [Storage]; status := GA; date := "2024-03-01"; link := None |}.

Definition marchSecond : AzureUpdate :=
  {| id := "6"; title := "Storage tiering, phase two"; description := "";
     domain := [Storage]; status := Preview; date := "2024-03-02"; link := None |}.

Definition yearZero : AzureUpdate :=
  {| id := "7"; title := "Abacus"; description := "";
     domain := [Compute]; status := Retired; date := "0000-03-05"; link := None |}.

Definition yearOne : AzureUpdate :=
  {| id := "8"; title := "Abacus, second edition"; description := "";
     domain := [Compute]; status := Retired; date := "0001-03-05"; link := None |}.

End Sample.

(* ------------------------------------------------------------------ *)
(** ** The vocabulary of the specification

    The three predicates of the Filter Engine as the specification words
    them, independently of the code, for the comparison with
    [filteredUpdates]. *)

Module Spec.

(** [q] is a substring of [s]. *)
Definition isSubstring (q s : string) : Prop :=
  exists pre post, s = (pre ++ q ++ post)%string.

(** [q] is case-insensitively a substring of [s]: some substring of [s]
    is [q] up to letter case. *)
Definition caseInsensitiveSubstring (q s : string) : Prop :=
  exists m, JsString.sameModuloCase m q /\ isSubstring m s.

(** Predicate 1: the search text is empty, or case-insensitively a
    substring of the title, or of the description. *)
Definition searchPredicate (searchText : string) (r : AzureUpdate) : Prop :=
  searchText = "" \/
  caseInsensitiveSubstring searchText (title r) \/
  caseInsensitiveSubstring searchText (description r).

(** Predicate 1 with "empty" read as "blank": nothing but white space. *)
Definition searchPredicateBlank (searchText : string) (r : AzureUpdate) : Prop :=
  JsString.allWhiteSpace searchText = true \/
  caseInsensitiveSubstring searchText (title r) \/
  caseInsensitiveSubstring searchText (description r).

(** Predicate 2: the category is absent, or one of the record's. *)
Definition categoryPredicate (category : option DomainCategory) (r : AzureUpdate) : Prop :=
  category = None \/ exists d, category = Some d /\ In d (domain r).

(** The instant [t] lies in the inclusive range of the bucket [b]. *)
Definition withinBucket (t : Z) (b : WeekEntry) : Prop :=
  exists s e, start (week b) = Some s /\ end_ (week b) = Some e /\ s <= t <= e.

(** Predicate 3: the week key is the sentinel, or the record's date lies
    within the bucket that the key names. *)
Definition weekPredicate (DateParse : string -> option Z) (weekKey : string)
    (buckets : list WeekEntry) (r : AzureUpdate) : Prop :=
  weekKey = "all" \/
  exists b t, In b buckets /\ key b = weekKey /\
              newDate DateParse (date r) = Some t /\ withinBucket t b.

(** The distinct members of a sequence, in first-seen order: the head,
    then the first-seen order of the rest without the head. *)
Fixpoint firstSeen (l : list string) : list string :=
  match l with
  | [] => []
  | k :: l' => k :: filter (fun k' => negb (String.eqb k' k)) (firstSeen l')
  end.

(** The calendar year and month that a date string of the form
    [YYYY-MM-DD] names, when it names a date of the calendar. *)
Definition calendarMonth (s : string) : option (Z * Z) :=
  match IsoDate.parse s with
  | Some _ =>
      match IsoDate.digitsVal (substring 0 4 s) 0, IsoDate.digitsVal (substring 5 2 s) 0 with
      | Some y, Some m => Some (y, m)
      | _, _ => None
      end
  | None => None
  end.

(** Two records are in one group of a grouping. *)
Definition sameGroup (groups : list (string * list AzureUpdate)) (u v : AzureUpdate) : Prop :=
  exists k g, In (k, g) groups /\ In u g /\ In v g.

End Spec.

(* ------------------------------------------------------------------ *)
(** ** The week window in closed form

    What [getWeekRange] computes for a valid date, written with the
    calendar functions directly; [getWeekRange_valid] below proves that it
    is this. *)

Section WeekWindow.

Variable LocalTZA : Z.

(** The local midnight that starts the day [WeekDay] days before the day
    of [t]. *)
Definition weekStart (t : Z) : Z :=
  (Day (LocalTime LocalTZA t) - WeekDay (LocalTime LocalTZA t)) * msPerDay - LocalTZA.

(** The last millisecond of the seven days from [s]. *)
Definition weekEnd (s : Z) : Z := s + 7 * msPerDay - 1.

Definition weekOf (s : Z) : WeekRange :=
  {| start := Some s;
     end_ := Some (weekEnd s);
     label := (toLocaleDateString_monthDay LocalTZA (Some s) ++ " - " ++
               toLocaleDateString_monthDayYear LocalTZA (Some (weekEnd s)))%string |}.

Definition entryOf (s : Z) : WeekEntry := {| key := isoString s; week := weekOf s |}.

(** [s] is the first instant of a Sunday, in local time. *)
Definition sundayMidnight (s : Z) : Prop :=
  WeekDay (LocalTime LocalTZA s) = 0 /\ TimeWithinDay (LocalTime LocalTZA s) = 0.

End WeekWindow.

(** The precondition on the dates of a collection: each one parses, to an
    instant whose week lies within the range of time values. *)
Definition validDates (DateParse : string -> option Z) (R : list AzureUpdate) : Prop :=
  forall u, In u R ->
    exists t, DateParse (date u) = Some t /\
              - maxTime + 7 * msPerDay <= t <= maxTime - 7 * msPerDay.

(* ------------------------------------------------------------------ *)
(** ** Rendering through [useMemo]

    [App] wraps each derivation in [useMemo(calculate, deps)].  On a
    render the hook may return the value it stored on an earlier render,
    but only when every dependency is the one it stored ([Object.is]);
    otherwise it calls [calculate], in the scope of the current render, and
    stores the result with the dependencies.  The arrays among the
    dependencies are never mutated, so an unchanged dependency has an
    unchanged value: the model lets the hook reuse a stored value whenever
    the stored dependencies are equal to the current ones, and lets it
    recalculate at any time.  A [calculate] that throws ([None]) stores
    nothing, and the render has no result. *)

Record Cell (D A : Type) : Type := {
  cell_deps : D;
  cell_value : A
}.

Inductive useMemo (D A : Type) (calculate : option A) (deps : D)
  : option (Cell D A) -> option (A * Cell D A) -> Prop :=
| useMemo_reuse (c : Cell D A) :
    cell_deps c = deps ->
    useMemo calculate deps (Some c) (Some (cell_value c, c))
| useMemo_calculate (stored : option (Cell D A)) :
    useMemo calculate deps stored
      (option_map (fun v => (v, {| cell_deps := deps; cell_value := v |})) calculate).

(** The dependency array of [filteredUpdates]:
    [[updates, searchQuery, selectedDomain, selectedWeek, availableWeeks]]. *)
Record FilterDeps : Type := {
  dep_updates : list AzureUpdate;
  dep_searchQuery : string;
  dep_selectedDomain : option DomainCategory;
  dep_selectedWeek : string;
  dep_availableWeeks : list WeekEntry
}.

(** The four memo cells of the component, empty before the first render. *)
Record Memos : Type := {
  memo_allDomains : option (Cell (list AzureUpdate) (list DomainCategory));
  memo_availableWeeks : option (Cell (list AzureUpdate) (list WeekEntry));
  memo_filteredUpdates : option (Cell FilterDeps (list AzureUpdate));
  memo_groupedByMonth :
    option (Cell (list AzureUpdate) (list (string * list AzureUpdate)))
}.

Definition noMemos : Memos :=
  {| memo_allDomains := None; memo_availableWeeks := None;
     memo_filteredUpdates := None; memo_groupedByMonth := None |}.

(** What a render hands to the presentation. *)
Record View : Type := {
  view_allDomains : list DomainCategory;
  view_availableWeeks : list WeekEntry;
  view_filteredUpdates : list AzureUpdate;
  view_groupedByMonth : list (string * list AzureUpdate)
}.

Section Render.

Variable LocalTZA : Z.
Variable DateParse : string -> option Z.

(** One render of [App] in state [s] with the memo cells [m]: the four
    hooks in the order of the source, each with the dependency array of
    the source. *)
Inductive render (s : AppState) (m : Memos) : option (View * Memos) -> Prop :=
| render_done d c1 ws c2 f c3 g c4 :
    useMemo (Some (allDomains (updates s))) (updates s)
      (memo_allDomains m) (Some (d, c1)) ->
    useMemo (availableWeeks LocalTZA DateParse (updates s)) (updates s)
      (memo_availableWeeks m) (Some (ws, c2)) ->
    useMemo
      (Some (filteredUpdates DateParse (updates s) (searchQuery s) (selectedDomain s)
               (selectedWeek s) ws))
      {| dep_updates := updates s; dep_searchQuery := searchQuery s;
         dep_selectedDomain := selectedDomain s; dep_selectedWeek := selectedWeek s;
         dep_availableWeeks := ws |}
      (memo_filteredUpdates m) (Some (f, c3)) ->
    useMemo (Some (groupedByMonth LocalTZA DateParse f)) f
      (memo_groupedByMonth m) (Some (g, c4)) ->
    render s m
      (Some ({| view_allDomains := d; view_availableWeeks := ws;
                view_filteredUpdates := f; view_groupedByMonth := g |},
             {| memo_allDomains := Some c1; memo_availableWeeks := Some c2;
                memo_filteredUpdates := Some c3; memo_groupedByMonth := Some c4 |}))
| render_throws d c1 :
    useMemo (Some (allDomains (updates s))) (updates s)
      (memo_allDomains m) (Some (d, c1)) ->
    useMemo (availableWeeks LocalTZA DateParse (updates s)) (updates s)
      (memo_availableWeeks m) None ->
    render s m None.

(** The memo cells that some sequence of renders leaves behind. *)
Inductive reachable : Memos -> Prop :=
| reachable_mount : reachable noMemos
| reachable_render m s v m' :
    reachable m -> render s m (Some (v, m')) -> reachable m'.

(** The derivations computed afresh from the four inputs. *)
Definition derive (updates : list AzureUpdate) (searchQuery : string)
    (selectedDomain : option DomainCategory) (selectedWeek : string) : option View :=
  match availableWeeks LocalTZA DateParse updates with
  | Some ws =>
      let f := filteredUpdates DateParse updates searchQuery selectedDomain selectedWeek ws in
      Some {| view_allDomains := allDomains updates; view_availableWeeks := ws;
              view_filteredUpdates := f;
              view_groupedByMonth := groupedByMonth LocalTZA DateParse f |}
  | None => None
  end.

(** Every stored value is the derivation of the dependencies stored with
    it. *)
Definition coherent (m : Memos) : Prop :=
  (forall c, memo_allDomains m = Some c -> cell_value c = allDomains (cell_deps c)) /\
  (forall c, memo_availableWeeks m = Some c ->
     availableWeeks LocalTZA DateParse (cell_deps c) = Some (cell_value c)) /\
  (forall c, memo_filteredUpdates m = Some c ->
     cell_value c =
     filteredUpdates DateParse (dep_updates (cell_deps c)) (dep_searchQuery (cell_deps c))
       (dep_selectedDomain (cell_deps c)) (dep_selectedWeek (cell_deps c))
       (dep_availableWeeks (cell_deps c))) /\
  (forall c, memo_groupedByMonth m = Some c ->
     cell_value c = groupedByMonth LocalTZA DateParse (cell_deps c)).

End Render.

(* ------------------------------------------------------------------ *)
(** ** The rest of [App]: statistics, the category buttons, the main
    area; [UpdateCard]; the earlier revision of [App] *)

(** The string each status is at run time. *)
Definition statusString (s : UpdateStatus) : string :=
  match s with
  | GA => "GA"
  | Preview => "Preview"
  | Deprecated => "Deprecated"
  | Retired => "Retired"
  | New => "New"
  end.

Record Statistics : Type := {
  total : Z;
  launched : Z;
  preview : Z;
  inDevelopment : Z
}.

(** [updates.filter(u => u.status === name).length] *)
Definition countStatus (name : string) (updates : list AzureUpdate) : Z :=
  Z.of_nat
    (List.length (filter (fun u => String.eqb (statusString (status u)) name) updates)).

Definition statistics (updates : list AzureUpdate) : Statistics :=
  {| total := Z.of_nat (List.length updates);
     launched := countStatus "GA" updates;
     preview := countStatus "Preview" updates;
     inDevelopment := countStatus "New" updates |}.

(** [selectedDomain === domain], for the button of [domain]. *)
Definition isActive (s : AppState) (domain : DomainCategory) : bool :=
  match selectedDomain s with
  | Some d => domainEqb d domain
  | None => false
  end.

(** The click handler of the button of [domain], as the render of state
    [s] creates it: [() => setSelectedDomain(isActive ? null : domain)]. *)
Definition handleDomainClick (s : AppState) (domain : DomainCategory) : list SetState :=
  [setSelectedDomain (if isActive s domain then None else Some domain)].

(** What the main area shows. *)
Inductive MainContent : Type :=
| EmptyState (message : string) (clearButton : bool)
| GridView (cards : list AzureUpdate)
| TimelineView (months : list (string * list AzureUpdate)).

Definition mainContent (s : AppState) (filteredUpdates : list AzureUpdate)
    (groupedByMonth : list (string * list AzureUpdate)) : MainContent :=
  if Nat.eqb (List.length filteredUpdates) 0 then
    EmptyState
      (if hasActiveFilters s then "Try adjusting your filters or search query"
       else "No updates available at the moment")
      (hasActiveFilters s)
  else
    match viewMode s with
    | grid => GridView filteredUpdates
    | timeline => TimelineView groupedByMonth
    end.

(** The records for which the main area renders a card, in order. *)
Definition cardsShown (c : MainContent) : list AzureUpdate :=
  match c with
  | EmptyState _ _ => []
  | GridView cards => cards
  | TimelineView months => List.concat (map snd months)
  end.

(** [UpdateCard]: the description as the collapsed card shows it. *)
Definition truncatedDescription (update : AzureUpdate) : string :=
  if Nat.ltb 180 (String.length (description update))
  then (substring 0 180 (description update) ++ "...")%string
  else description update.

(** Whether the card shows its "more" hint. *)
Definition showsMore (expanded : bool) (update : AzureUpdate) : bool :=
  negb expanded && Nat.ltb 180 (String.length (description update)).

(** The earlier revision of [App], the second text in [App.tsx]: no week
    filter. *)
Module Revision1.

Definition filteredUpdates (updates : list AzureUpdate) (searchQuery : string)
    (selectedDomain : option DomainCategory) : list AzureUpdate :=
  filter
    (fun update => matchesSearch searchQuery update && matchesDomain selectedDomain update)
    updates.

Definition handleClearFilters : list SetState :=
  [setSearchQuery ""; setSelectedDomain None].

Definition hasActiveFilters (s : AppState) : bool :=
  negb (String.eqb (JsString.trim (searchQuery s)) "") ||
  (match selectedDomain s with Some _ => true | None => false end).

End Revision1.

(* ================================================================== *)
(** * Properties *)

(** ** The calendar *)

Module JsDateFacts.

Ltac unfold_ms := unfold msPerDay, msPerHour, msPerMinute, msPerSecond in *.

(** Linear arithmetic with quotients and remainders by constants. *)
Ltac zdiv := Z.div_mod_to_equations; lia.

Lemma mod100_mod4 (y : Z) : y mod 100 = 0 -> y mod 4 = 0.
Proof. zdiv. Qed.

Lemma mod400_mod100 (y : Z) : y mod 400 = 0 -> y mod 100 = 0.
Proof. zdiv. Qed.

Lemma DaysInYear_cases (y : Z) : DaysInYear y = 365 \/ DaysInYear y = 366.
Proof.
  unfold DaysInYear.
  destruct (y mod 4 =? 0), (y mod 100 =? 0), (y mod 400 =? 0); simpl; auto.
Qed.

Lemma DayFromYear_succ (y : Z) :
  DayFromYear (y + 1) = DayFromYear y + DaysInYear y.
Proof.
  unfold DayFromYear, DaysInYear.
  pose proof (mod100_mod4 y). pose proof (mod400_mod100 y).
  destruct (Z.eqb_spec (y mod 4) 0); cbn [negb];
  destruct (Z.eqb_spec (y mod 100) 0); cbn [negb];
  destruct (Z.eqb_spec (y mod 400) 0); cbn [negb].
  all: try (exfalso; lia).
  all: zdiv.
Qed.

(** [YearFromTime t] is the year that holds the day of [t]. *)
Lemma YearFromTime_spec (t : Z) :
  DayFromYear (YearFromTime t) <= Day t < DayFromYear (YearFromTime t + 1).
Proof.
  unfold YearFromTime.
  set (d := Day t). clearbody d.
  set (y := 1970 + 400 * d / 146097).
  assert (Hy : 146097 * (y - 1970) <= 400 * d < 146097 * (y - 1970) + 146097)
    by (subst y; zdiv).
  clearbody y.
  destruct (Z.leb_spec (DayFromYear (y + 1)) d) as [H1 | H1].
  - split; [exact H1 |]. unfold DayFromYear in *. zdiv.
  - destruct (Z.leb_spec (DayFromYear y) d) as [H0 | H0].
    + split; assumption.
    + replace (y - 1 + 1) with y by lia. split; [| exact H0].
      unfold DayFromYear in *. zdiv.
Qed.

Lemma DayWithinYear_range (t : Z) :
  0 <= DayWithinYear t < DaysInYear (YearFromTime t).
Proof.
  unfold DayWithinYear.
  pose proof (YearFromTime_spec t) as H.
  rewrite DayFromYear_succ in H. lia.
Qed.

Lemma MonthFromTime_range (t : Z) : 0 <= MonthFromTime t <= 11.
Proof.
  unfold MonthFromTime.
  repeat match goal with |- context [if ?b then _ else _] => destruct b end; lia.
Qed.

(** The day of [t] is the first of its month plus its date. *)
Lemma Day_decompose (t : Z) :
  Day t =
  DayFromYear (YearFromTime t) +
  daysBeforeMonth (YearFromTime t) (MonthFromTime t) + DateFromTime t - 1.
Proof.
  unfold DateFromTime, daysBeforeMonth, MonthFromTime, InLeapYear.
  unfold DayWithinYear.
  set (d := Day t). set (y := YearFromTime t).
  destruct (DaysInYear y =? 366);
  repeat match goal with |- context [if ?b then _ else _] => destruct b end;
  lia.
Qed.

Lemma MakeDay_of_time (t dt : Z) :
  MakeDay (YearFromTime t) (MonthFromTime t) dt = Day t - DateFromTime t + dt.
Proof.
  pose proof (MonthFromTime_range t) as Hm.
  pose proof (Day_decompose t) as Hd.
  unfold MakeDay.
  revert Hm Hd.
  generalize (MonthFromTime t) (YearFromTime t) (DateFromTime t) (Day t).
  intros m y d n Hm Hd.
  rewrite (Z.div_small m 12), (Z.mod_small m 12) by lia.
  rewrite Z.add_0_r. lia.
Qed.

Lemma DateFromTime_range (t : Z) : 1 <= DateFromTime t <= 31.
Proof.
  pose proof (DayWithinYear_range t) as Hd.
  pose proof (DaysInYear_cases (YearFromTime t)) as Hy.
  unfold DateFromTime, MonthFromTime, InLeapYear.
  set (d := DayWithinYear t) in *. set (y := YearFromTime t) in *.
  destruct (Z.eqb_spec (DaysInYear y) 366);
  repeat match goal with
         | |- context [if ?a <? ?b then _ else _] => destruct (Z.ltb_spec a b)
         end; lia.
Qed.

Lemma time_decompose (t : Z) : t = Day t * msPerDay + TimeWithinDay t.
Proof. unfold Day, TimeWithinDay, msPerDay. zdiv. Qed.

Lemma TimeClip_in_range (t : Z) :
  - maxTime <= t <= maxTime -> TimeClip t = Some t.
Proof.
  intros H. unfold TimeClip.
  destruct (Z.gtb_spec (Z.abs t) maxTime) as [Hlt | Hle]; [lia | reflexivity].
Qed.

Lemma TimeClip_some (t u : Z) :
  TimeClip t = Some u -> u = t /\ - maxTime <= t <= maxTime.
Proof.
  unfold TimeClip.
  destruct (Z.gtb_spec (Z.abs t) maxTime) as [Hlt | Hle]; [discriminate |].
  intros H. injection H as <-. lia.
Qed.

Section LocalZoneFacts.

Variable LocalTZA : Z.

(** [setDate] moves the time value by whole days. *)
Lemma setDate_some (tv dt : Z) :
  setDate LocalTZA (Some tv) (Some dt) =
  TimeClip (tv + (dt - DateFromTime (LocalTime LocalTZA tv)) * msPerDay).
Proof.
  unfold setDate. f_equal.
  rewrite MakeDay_of_time. unfold MakeDate, UTC.
  pose proof (time_decompose (LocalTime LocalTZA tv)) as Ht.
  revert Ht.
  generalize (DateFromTime (LocalTime LocalTZA tv)) (Day (LocalTime LocalTZA tv))
             (TimeWithinDay (LocalTime LocalTZA tv)).
  unfold LocalTime. intros. lia.
Qed.

Lemma setHours_some (tv hour min sec ms : Z) :
  setHours LocalTZA (Some tv) hour min sec ms =
  TimeClip (Day (tv + LocalTZA) * msPerDay + MakeTime hour min sec ms - LocalTZA).
Proof. reflexivity. Qed.

End LocalZoneFacts.

(** *** The week window *)

Lemma WeekDay_range (t : Z) : 0 <= WeekDay t <= 6.
Proof. unfold WeekDay. zdiv. Qed.

Lemma Day_shift (t k : Z) : Day (t + k * msPerDay) = Day t + k.
Proof. unfold Day, msPerDay. zdiv. Qed.

Section WeekWindowFacts.

Variable LocalTZA : Z.

Lemma weekStart_bounds (t : Z) :
  weekStart LocalTZA t <= t < weekStart LocalTZA t + 7 * msPerDay.
Proof.
  unfold weekStart. pose proof (WeekDay_range (LocalTime LocalTZA t)) as Hw.
  revert Hw. generalize (WeekDay (LocalTime LocalTZA t)). intros wd Hw.
  unfold LocalTime, Day, msPerDay. zdiv.
Qed.

Lemma weekStart_sunday (t : Z) : sundayMidnight LocalTZA (weekStart LocalTZA t).
Proof.
  unfold sundayMidnight, weekStart, WeekDay, TimeWithinDay, LocalTime, Day, msPerDay.
  split; zdiv.
Qed.

(** Two Sunday midnights are the same or at least seven days apart. *)
Lemma sundayMidnight_gap (s1 s2 : Z) :
  sundayMidnight LocalTZA s1 -> sundayMidnight LocalTZA s2 ->
  s1 < s2 -> s1 + 7 * msPerDay <= s2.
Proof.
  unfold sundayMidnight, WeekDay, TimeWithinDay, LocalTime, Day, msPerDay.
  intros [H1 H1'] [H2 H2'] Hlt. zdiv.
Qed.

(** For a date at least a week inside the range of time values,
    [getWeekRange] returns the week of [weekStart]. *)
Lemma getWeekRange_valid (t : Z) :
  - maxTime + 7 * msPerDay <= t <= maxTime - 7 * msPerDay ->
  getWeekRange LocalTZA (Some t) = weekOf LocalTZA (weekStart LocalTZA t).
Proof.
  intros Ht.
  pose proof (weekStart_bounds t) as Hb.
  pose proof (WeekDay_range (LocalTime LocalTZA t)) as Hw.
  assert (Hmax : maxTime = 8640000000000000) by reflexivity.
  assert (Hday : msPerDay = 86400000) by reflexivity.
  set (wd := WeekDay (LocalTime LocalTZA t)) in *.
  set (s := weekStart LocalTZA t) in *.
  assert (H1 : setDate LocalTZA (Some t)
                 (numSub (getDate LocalTZA (Some t)) (getDay LocalTZA (Some t))) =
               Some (t + - wd * msPerDay)).
  { unfold getDay, getDate, numSub. rewrite setDate_some. fold wd.
    rewrite <- TimeClip_in_range by lia. f_equal. ring. }
  assert (H2 : setHours LocalTZA (Some (t + - wd * msPerDay)) 0 0 0 0 = Some s).
  { rewrite setHours_some.
    replace (t + - wd * msPerDay + LocalTZA) with (LocalTime LocalTZA t + - wd * msPerDay)
      by (unfold LocalTime; ring).
    rewrite Day_shift. rewrite <- TimeClip_in_range by lia. f_equal.
    unfold s, weekStart, MakeTime. fold wd. ring. }
  assert (H3 : setDate LocalTZA (Some s) (numAdd (getDate LocalTZA (Some s)) (Some 6)) =
               Some (s + 6 * msPerDay)).
  { unfold getDate, numAdd. rewrite setDate_some.
    rewrite <- TimeClip_in_range by lia. f_equal. ring. }
  assert (H4 : setHours LocalTZA (Some (s + 6 * msPerDay)) 23 59 59 999 =
               Some (weekEnd s)).
  { rewrite setHours_some.
    replace (s + 6 * msPerDay + LocalTZA) with (s + LocalTZA + 6 * msPerDay) by ring.
    rewrite Day_shift. rewrite <- (TimeClip_in_range (t := weekEnd s))
      by (unfold weekEnd; lia).
    f_equal.
    destruct (weekStart_sunday t) as [_ Hmid]. fold s in Hmid.
    pose proof (time_decompose (LocalTime LocalTZA s)) as Hdec.
    rewrite Hmid in Hdec. unfold LocalTime in Hdec.
    unfold weekEnd, MakeTime, msPerHour, msPerMinute, msPerSecond. lia. }
  unfold getWeekRange. cbv zeta. rewrite H1, H2, H3, H4. reflexivity.
Qed.

Lemma weekEnd_saturday (s : Z) :
  sundayMidnight LocalTZA s -> WeekDay (LocalTime LocalTZA (weekEnd s)) = 6.
Proof.
  unfold sundayMidnight, weekEnd, WeekDay, TimeWithinDay, LocalTime, Day, msPerDay.
  intros [H1 H2]. zdiv.
Qed.

End WeekWindowFacts.

(** *** [toISOString] names its instant *)

Lemma append_inj_length (a b c d : string) :
  String.length a = String.length c ->
  (a ++ b)%string = (c ++ d)%string -> a = c /\ b = d.
Proof.
  revert c. induction a as [| x a IH]; intros [| y c] Hl H; simpl in *;
    try discriminate.
  - auto.
  - injection H as -> H. injection Hl as Hl.
    destruct (IH _ Hl H) as [-> ->]. auto.
Qed.

Lemma length_append (a b : string) :
  String.length (a ++ b) = (String.length a + String.length b)%nat.
Proof. induction a as [| c a IH]; simpl; [reflexivity | now rewrite IH]. Qed.

Lemma length_padDigits (w : nat) (n : Z) : String.length (padDigits w n) = w.
Proof.
  revert n. induction w as [| w IH]; intros n; simpl; [reflexivity |].
  rewrite length_append, IH. simpl. lia.
Qed.

Lemma digitChar_inj (a b : Z) :
  0 <= a < 10 -> 0 <= b < 10 -> digitChar a = digitChar b -> a = b.
Proof.
  intros Ha Hb H. unfold digitChar in H.
  apply (f_equal N_of_ascii) in H.
  rewrite !N_ascii_embedding in H by lia. lia.
Qed.

Lemma padDigits_inj (w : nat) (a b : Z) :
  0 <= a < 10 ^ Z.of_nat w -> 0 <= b < 10 ^ Z.of_nat w ->
  padDigits w a = padDigits w b -> a = b.
Proof.
  revert a b. induction w as [| w IH]; intros a b Ha Hb H.
  - simpl in Ha, Hb. lia.
  - rewrite Nat2Z.inj_succ, Z.pow_succ_r in Ha, Hb by lia.
    simpl in H. apply append_inj_length in H as [H1 H2];
      [| now rewrite !length_padDigits].
    injection H2 as H2.
    apply digitChar_inj in H2; [| zdiv | zdiv].
    apply IH in H1; [| zdiv | zdiv].
    zdiv.
Qed.

Lemma length_isoYear (y : Z) :
  String.length (isoYear y) = if (0 <=? y) && (y <=? 9999) then 4%nat else 7%nat.
Proof.
  unfold isoYear. destruct ((0 <=? y) && (y <=? 9999)).
  - apply length_padDigits.
  - rewrite length_append, length_padDigits. now destruct (y <? 0).
Qed.

Lemma isoYear_inj (y1 y2 : Z) :
  -999999 <= y1 <= 999999 -> -999999 <= y2 <= 999999 ->
  isoYear y1 = isoYear y2 -> y1 = y2.
Proof.
  intros H1 H2 H.
  pose proof (f_equal String.length H) as Hl. rewrite !length_isoYear in Hl.
  unfold isoYear in H.
  destruct ((0 <=? y1) && (y1 <=? 9999)) eqn:E1, ((0 <=? y2) && (y2 <=? 9999)) eqn:E2;
    try discriminate Hl.
  - apply andb_true_iff in E1 as [E1 E1'], E2 as [E2 E2'].
    apply (padDigits_inj 4) in H; [exact H | change (10 ^ Z.of_nat 4) with 10000; lia ..].
  - apply append_inj_length in H as [Hs H];
      [| now destruct (y1 <? 0), (y2 <? 0)].
    apply (padDigits_inj 6) in H; [| change (10 ^ Z.of_nat 6) with 1000000; lia ..].
    destruct (Z.ltb_spec y1 0), (Z.ltb_spec y2 0); try discriminate Hs; lia.
Qed.

Lemma YearFromTime_bound (t : Z) :
  - maxTime <= t <= maxTime -> -999999 <= YearFromTime t <= 999999.
Proof.
  intros Ht. pose proof (YearFromTime_spec t) as Hy.
  assert (Hd : -100000000 <= Day t <= 100000000)
    by (unfold Day, msPerDay, maxTime in *; zdiv).
  revert Hy Hd. generalize (YearFromTime t) (Day t). intros y d Hy Hd.
  unfold DayFromYear in Hy. zdiv.
Qed.

Lemma time_fields (t : Z) :
  t = Day t * msPerDay + HourFromTime t * msPerHour + MinFromTime t * msPerMinute +
      SecFromTime t * msPerSecond + msFromTime t.
Proof.
  unfold Day, HourFromTime, MinFromTime, SecFromTime, msFromTime.
  unfold_ms. zdiv.
Qed.

Lemma time_fields_range (t : Z) :
  0 <= HourFromTime t < 24 /\ 0 <= MinFromTime t < 60 /\ 0 <= SecFromTime t < 60 /\
  0 <= msFromTime t < 1000.
Proof.
  unfold HourFromTime, MinFromTime, SecFromTime, msFromTime. unfold_ms.
  repeat split; zdiv.
Qed.

(** One field of the ISO string: a separator, then digits of known width. *)
Ltac peel_field H Hf :=
  apply append_inj_length in H as [_ H]; [| reflexivity];
  apply append_inj_length in H as [Hf H]; [| now rewrite !length_padDigits].

(** Within the range of time values, [toISOString] is injective: the
    string names its instant. *)
Lemma isoString_inj (t1 t2 : Z) :
  - maxTime <= t1 <= maxTime -> - maxTime <= t2 <= maxTime ->
  isoString t1 = isoString t2 -> t1 = t2.
Proof.
  intros Ht1 Ht2 H.
  pose proof (YearFromTime_bound Ht1) as Hy1. pose proof (YearFromTime_bound Ht2) as Hy2.
  pose proof (MonthFromTime_range t1) as Hm1. pose proof (MonthFromTime_range t2) as Hm2.
  pose proof (DateFromTime_range t1) as Hd1. pose proof (DateFromTime_range t2) as Hd2.
  pose proof (time_fields_range t1) as (Hh1 & Hmi1 & Hs1 & Hms1).
  pose proof (time_fields_range t2) as (Hh2 & Hmi2 & Hs2 & Hms2).
  pose proof (Day_decompose t1) as HD1. pose proof (Day_decompose t2) as HD2.
  pose proof (time_fields t1) as HT1. pose proof (time_fields t2) as HT2.
  unfold isoString in H.
  revert H Hy1 Hy2 Hm1 Hm2 Hd1 Hd2 Hh1 Hh2 Hmi1 Hmi2 Hs1 Hs2 Hms1 Hms2 HD1 HD2 HT1 HT2.
  generalize (YearFromTime t1) (MonthFromTime t1) (DateFromTime t1) (HourFromTime t1)
             (MinFromTime t1) (SecFromTime t1) (msFromTime t1) (Day t1).
  intros y1 m1 d1 h1 mi1 s1 ms1 D1.
  generalize (YearFromTime t2) (MonthFromTime t2) (DateFromTime t2) (HourFromTime t2)
             (MinFromTime t2) (SecFromTime t2) (msFromTime t2) (Day t2).
  intros y2 m2 d2 h2 mi2 s2 ms2 D2.
  intros H Hy1 Hy2 Hm1 Hm2 Hd1 Hd2 Hh1 Hh2 Hmi1 Hmi2 Hs1 Hs2 Hms1 Hms2 HD1 HD2 HT1 HT2.
  pose proof (f_equal String.length H) as Hl.
  repeat rewrite length_append in Hl. repeat rewrite length_padDigits in Hl.
  apply append_inj_length in H as [Hy H]; [| simpl in Hl; lia].
  apply isoYear_inj in Hy; [| assumption ..].
  peel_field H Hm. peel_field H Hd. peel_field H Hh. peel_field H Hmi.
  peel_field H Hs. peel_field H Hms.
  apply (padDigits_inj 2) in Hm, Hd, Hh, Hmi, Hs;
    try (change (10 ^ Z.of_nat 2) with 100; lia).
  apply (padDigits_inj 3) in Hms; try (change (10 ^ Z.of_nat 3) with 1000; lia).
  assert (m1 = m2) by lia. subst.
  lia.
Qed.

End JsDateFacts.

(* ------------------------------------------------------------------ *)
(** ** Strings *)

Module JsStringFacts.

Import JsString.

Lemma codeUnit_bound (c : ascii) : (codeUnit c < 256)%N.
Proof. apply N_ascii_bounded. Qed.

Lemma codeUnit_inj (a b : ascii) : codeUnit a = codeUnit b -> a = b.
Proof.
  unfold codeUnit. intros H.
  rewrite <- (ascii_N_embedding a), <- (ascii_N_embedding b). now rewrite H.
Qed.

(** Booleans of comparisons on [N] into propositions, then [lia]. *)
Ltac nbool :=
  repeat match goal with
         | H : context [N.leb ?a ?b] |- _ => destruct (N.leb_spec a b)
         | |- context [N.leb ?a ?b] => destruct (N.leb_spec a b)
         | H : context [N.eqb ?a ?b] |- _ => destruct (N.eqb_spec a b)
         | |- context [N.eqb ?a ?b] => destruct (N.eqb_spec a b)
         | H : context [N.ltb ?a ?b] |- _ => destruct (N.ltb_spec a b)
         | |- context [N.ltb ?a ?b] => destruct (N.ltb_spec a b)
         end;
  simpl in *; try discriminate; try lia; auto.

Lemma isUpper_range (c : ascii) :
  isUpper c = true ->
  (65 <= codeUnit c <= 90 \/ (192 <= codeUnit c <= 222 /\ codeUnit c <> 215))%N.
Proof. unfold isUpper. intros H. nbool. Qed.

Lemma codeUnit_toLowerChar (c : ascii) :
  codeUnit (toLowerChar c) = if isUpper c then (codeUnit c + 32)%N else codeUnit c.
Proof.
  unfold toLowerChar. destruct (isUpper c) eqn:E; [| reflexivity].
  apply isUpper_range in E. unfold codeUnit at 1.
  apply N_ascii_embedding. lia.
Qed.

Lemma isUpper_toLowerChar (c : ascii) : isUpper (toLowerChar c) = false.
Proof.
  pose proof (codeUnit_toLowerChar c) as H.
  destruct (isUpper c) eqn:E.
  - apply isUpper_range in E. unfold isUpper. rewrite H. nbool.
  - unfold toLowerChar. now rewrite E.
Qed.

Lemma toLowerChar_idem (c : ascii) : toLowerChar (toLowerChar c) = toLowerChar c.
Proof. unfold toLowerChar at 1. now rewrite isUpper_toLowerChar. Qed.

(** Two code units have the same lower-case form exactly when they are
    the same letter up to case. *)
Lemma toLowerChar_eq_iff (a b : ascii) :
  toLowerChar a = toLowerChar b <-> sameLetter a b.
Proof.
  unfold sameLetter. split.
  - intros H. apply (f_equal codeUnit) in H.
    rewrite !codeUnit_toLowerChar in H.
    destruct (isUpper a) eqn:Ea, (isUpper b) eqn:Eb.
    + left. apply codeUnit_inj. lia.
    + right. left. split; [reflexivity | lia].
    + right. right. split; [reflexivity | lia].
    + left. now apply codeUnit_inj.
  - intros [-> | [[Ha Hb] | [Hb Ha]]]; [reflexivity | |];
      apply codeUnit_inj; rewrite !codeUnit_toLowerChar.
    + rewrite Ha. pose proof (isUpper_range _ Ha).
      replace (isUpper b) with false; [lia |].
      symmetry. unfold isUpper. rewrite Hb. nbool.
    + rewrite Hb. pose proof (isUpper_range _ Hb).
      replace (isUpper a) with false; [lia |].
      symmetry. unfold isUpper. rewrite Ha. nbool.
Qed.

Lemma toLowerCase_eq_iff (s t : string) :
  toLowerCase s = toLowerCase t <-> sameModuloCase s t.
Proof.
  split.
  - revert t. induction s as [| a s IH]; intros [| b t] H; simpl in H;
      try discriminate.
    + constructor.
    + injection H as Hc Hs. constructor; [now apply toLowerChar_eq_iff | now apply IH].
  - induction 1 as [| a b s t Hab _ IH]; simpl; [reflexivity |].
    f_equal; [now apply toLowerChar_eq_iff | exact IH].
Qed.

Lemma toLowerCase_idem (s : string) : toLowerCase (toLowerCase s) = toLowerCase s.
Proof.
  induction s as [| c s IH]; simpl; [reflexivity |].
  now rewrite toLowerChar_idem, IH.
Qed.

Lemma toLowerCase_app (s t : string) :
  toLowerCase (s ++ t) = (toLowerCase s ++ toLowerCase t)%string.
Proof. induction s as [| c s IH]; simpl; [reflexivity | now rewrite IH]. Qed.

Lemma toLowerCase_split (s a b : string) :
  toLowerCase s = (a ++ b)%string ->
  exists s1 s2, s = (s1 ++ s2)%string /\ toLowerCase s1 = a /\ toLowerCase s2 = b.
Proof.
  revert s. induction a as [| c a IH]; intros s H; simpl in H.
  - exists EmptyString, s. auto.
  - destruct s as [| c' s]; simpl in H; [discriminate |].
    injection H as Hc Hs. destruct (IH _ Hs) as (s1 & s2 & -> & H1 & H2).
    exists (String c' s1), s2. simpl. now rewrite Hc, H1.
Qed.

(** *** White space and [trim] *)

Lemma trimStart_empty (s : string) : trimStart s = EmptyString <-> allWhiteSpace s = true.
Proof.
  induction s as [| c s IH]; simpl; [tauto |].
  destruct (isWhiteSpace c); simpl; [exact IH |].
  split; discriminate.
Qed.

Lemma trimEnd_empty (s : string) : trimEnd s = EmptyString <-> allWhiteSpace s = true.
Proof.
  induction s as [| c s IH]; simpl; [tauto |].
  destruct (trimEnd s) eqn:E.
  - destruct (isWhiteSpace c); simpl.
    + rewrite <- IH. tauto.
    + split; discriminate.
  - split; [discriminate |]. intros H.
    apply andb_true_iff in H as [_ H]. apply IH in H. discriminate.
Qed.

Lemma allWhiteSpace_trimStart (s : string) :
  allWhiteSpace (trimStart s) = allWhiteSpace s.
Proof.
  induction s as [| c s IH]; simpl; [reflexivity |].
  destruct (isWhiteSpace c) eqn:E; simpl; [exact IH | now rewrite E].
Qed.

(** A string trims to the empty string exactly when it holds nothing but
    white space. *)
Lemma trim_empty (s : string) : trim s = EmptyString <-> allWhiteSpace s = true.
Proof. unfold trim. now rewrite trimEnd_empty, allWhiteSpace_trimStart. Qed.

Lemma trim_eqb_empty (s : string) : String.eqb (trim s) "" = allWhiteSpace s.
Proof.
  destruct (allWhiteSpace s) eqn:E.
  - apply trim_empty in E. now rewrite E.
  - apply String.eqb_neq. intros H. apply trim_empty in H. congruence.
Qed.

Lemma sameLetter_isWhiteSpace (a b : ascii) :
  sameLetter a b -> isWhiteSpace a = isWhiteSpace b.
Proof.
  intros [-> | [[Ha Hb] | [Hb Ha]]]; [reflexivity | |].
  - apply isUpper_range in Ha. unfold isWhiteSpace. rewrite Hb. nbool.
  - apply isUpper_range in Hb. unfold isWhiteSpace. rewrite Ha. nbool.
Qed.

Lemma sameModuloCase_allWhiteSpace (s t : string) :
  sameModuloCase s t -> allWhiteSpace s = allWhiteSpace t.
Proof.
  induction 1 as [| a b s t Hab _ IH]; simpl; [reflexivity |].
  now rewrite (sameLetter_isWhiteSpace Hab), IH.
Qed.

(** *** [includes] *)

Lemma startsWith_iff (s p : string) :
  startsWith s p = true <-> exists post, s = (p ++ post)%string.
Proof.
  revert s. induction p as [| a p IH]; intros s; simpl.
  - split; [intros _; now exists s | intros _; now destruct s].
  - destruct s as [| b s]; simpl.
    + split; [discriminate | intros [post H]; discriminate].
    + rewrite andb_true_iff, IH. split.
      * intros [Hab [post ->]]. apply Ascii.eqb_eq in Hab as ->. now exists post.
      * intros [post H]. injection H as -> ->. split; [apply Ascii.eqb_refl | now exists post].
Qed.

(** [s.includes(sub)] holds exactly when [sub] is a contiguous part of [s]. *)
Lemma includes_iff (s sub : string) :
  includes s sub = true <-> exists pre post, s = (pre ++ sub ++ post)%string.
Proof.
  induction s as [| c s IH].
  - cbn [includes]. rewrite orb_false_r, startsWith_iff. split.
    + intros [post H]. now exists EmptyString, post.
    + intros [[| c pre] [post H]]; simpl in H; [now exists post | discriminate].
  - cbn [includes]. rewrite orb_true_iff, startsWith_iff, IH. split.
    + intros [[post H] | (pre & post & ->)].
      * now exists EmptyString, post.
      * now exists (String c pre), post.
    + intros [[| c' pre] [post H]]; simpl in H.
      * left. now exists post.
      * injection H as -> ->. right. now exists pre, post.
Qed.

(** The search test of the filter: the lower-cased text holds the
    lower-cased query exactly when the text has a contiguous part that is
    the query up to letter case. *)
Lemma includes_toLowerCase_iff (s q : string) :
  includes (toLowerCase s) (toLowerCase q) = true <->
  exists pre m post, s = (pre ++ m ++ post)%string /\ sameModuloCase m q.
Proof.
  rewrite includes_iff. split.
  - intros (a & b & H).
    apply toLowerCase_split in H as (pre & rest & -> & _ & H).
    apply toLowerCase_split in H as (m & post & -> & Hm & _).
    exists pre, m, post. split; [reflexivity | now apply toLowerCase_eq_iff].
  - intros (pre & m & post & -> & H). apply toLowerCase_eq_iff in H.
    exists (toLowerCase pre), (toLowerCase post).
    now rewrite !toLowerCase_app, H.
Qed.

(** *** The code-unit order *)

Lemma lt_irrefl (x : string) : lt x x = false.
Proof.
  induction x as [| a x IH]; simpl; [reflexivity |].
  now rewrite N.ltb_irrefl.
Qed.

Lemma lt_asym (x y : string) : lt x y = true -> lt y x = false.
Proof.
  revert y. induction x as [| a x IH]; intros [| b y]; simpl;
    try discriminate; auto.
  intros H. nbool.
Qed.

Lemma lt_total (x y : string) : lt x y = false -> lt y x = false -> x = y.
Proof.
  revert y. induction x as [| a x IH]; intros [| b y]; simpl;
    try discriminate; auto.
  intros H1 H2. nbool.
  f_equal; [apply codeUnit_inj; lia | now apply IH].
Qed.

Lemma lt_trans (x y z : string) : lt x y = true -> lt y z = true -> lt x z = true.
Proof.
  revert y z. induction x as [| a x IH]; intros [| b y] [| c z]; simpl;
    try discriminate; auto.
  intros H1 H2. nbool. eauto.
Qed.

(** "Not after" is transitive: the order is a weak order. *)
Lemma le_trans (x y z : string) : lt y x = false -> lt z y = false -> lt z x = false.
Proof.
  revert y z. induction x as [| a x IH]; intros [| b y] [| c z]; simpl;
    try discriminate; auto.
  intros H1 H2. nbool. eauto.
Qed.

Lemma sameLetter_sym (a b : ascii) : sameLetter a b -> sameLetter b a.
Proof. unfold sameLetter. intuition auto. Qed.

Lemma sameModuloCase_refl (s : string) : sameModuloCase s s.
Proof. apply toLowerCase_eq_iff. reflexivity. Qed.

Lemma sameModuloCase_sym (s t : string) : sameModuloCase s t -> sameModuloCase t s.
Proof. rewrite <- !toLowerCase_eq_iff. auto. Qed.

Lemma sameModuloCase_trans (s t u : string) :
  sameModuloCase s t -> sameModuloCase t u -> sameModuloCase s u.
Proof. rewrite <- !toLowerCase_eq_iff. congruence. Qed.

End JsStringFacts.

(* ------------------------------------------------------------------ *)
(** ** Arrays, sets and maps *)

Module ContainerFacts.

Section Sorting.

Variable A : Type.
Variable cmp : A -> A -> Z.

Lemma insertBy_perm (x : A) (l : list A) : Permutation (insertBy cmp x l) (x :: l).
Proof.
  induction l as [| y l IH]; simpl; [reflexivity |].
  destruct (cmp x y <=? 0); [reflexivity |].
  rewrite IH. apply perm_swap.
Qed.

(** Sorting rearranges: nothing is lost, added or repeated. *)
Lemma sortBy_perm (l : list A) : Permutation (sortBy cmp l) l.
Proof.
  induction l as [| x l IH]; simpl; [reflexivity |].
  unfold sortBy in *. simpl. rewrite insertBy_perm. now constructor.
Qed.

Lemma sortBy_In (x : A) (l : list A) : In x (sortBy cmp l) <-> In x l.
Proof.
  split; apply Permutation_in; [| symmetry]; apply sortBy_perm.
Qed.

Lemma sortBy_NoDup (l : list A) : NoDup l -> NoDup (sortBy cmp l).
Proof. apply Permutation_NoDup. symmetry. apply sortBy_perm. Qed.

Lemma sortBy_length (l : list A) : List.length (sortBy cmp l) = List.length l.
Proof. apply Permutation_length, sortBy_perm. Qed.

Section Order.

(** The comparator is consistent: it says "not after" for a total
    preorder [le] on the elements of the array. *)
Variable P : A -> Prop.
Variable le : A -> A -> Prop.
Hypothesis cmp_le : forall x y, P x -> P y -> cmp x y <= 0 -> le x y.
Hypothesis cmp_gt : forall x y, P x -> P y -> ~ cmp x y <= 0 -> le y x.
Hypothesis le_trans : forall x y z, P x -> P y -> P z -> le x y -> le y z -> le x z.

Lemma insertBy_sorted (x : A) (l : list A) :
  P x -> Forall P l ->
  StronglySorted le l -> StronglySorted le (insertBy cmp x l).
Proof.
  intros Px Pl Hs. induction Hs as [| y l Hs IH Hy]; simpl.
  - repeat constructor.
  - inversion Pl as [| ? ? Py Pl']; subst.
    destruct (Z.leb_spec (cmp x y) 0) as [Hc | Hc].
    + constructor; [now constructor |].
      constructor; [now apply cmp_le |].
      rewrite Forall_forall in *. intros z Hz.
      apply le_trans with y; auto.
    + constructor; [now apply IH |].
      rewrite Forall_forall in *. intros z Hz.
      apply (Permutation_in _ (insertBy_perm x l)) in Hz.
      destruct Hz as [<- | Hz]; [apply cmp_gt; auto; lia | auto].
Qed.

Lemma sortBy_sorted (l : list A) : Forall P l -> StronglySorted le (sortBy cmp l).
Proof.
  induction 1 as [| x l Px Pl IH]; [constructor |].
  unfold sortBy in *. simpl. apply insertBy_sorted; auto.
  rewrite Forall_forall in *. intros z Hz. apply Pl.
  now apply (Permutation_in _ (sortBy_perm l)).
Qed.

End Order.

End Sorting.

(** Sorting commutes with a map that respects the comparators. *)
Lemma sortBy_map (A B : Type) (f : A -> B) (cmpA : A -> A -> Z) (cmpB : B -> B -> Z)
    (l : list A) :
  (forall a b, cmpB (f a) (f b) = cmpA a b) ->
  sortBy cmpB (map f l) = map f (sortBy cmpA l).
Proof.
  intros H. induction l as [| x l IH]; [reflexivity |].
  unfold sortBy in *. simpl. rewrite IH.
  generalize (fold_right (insertBy cmpA) [] l). intros s.
  induction s as [| y s IHs]; simpl; [reflexivity |].
  rewrite H. destruct (cmpA x y <=? 0); simpl; [reflexivity | now rewrite IHs].
Qed.

Section Sets.

Variable A : Type.
Variable eqb : A -> A -> bool.
Hypothesis eqb_spec : forall x y, eqb x y = true <-> x = y.

Lemma existsb_eqb_In (x : A) (s : list A) : existsb (eqb x) s = true <-> In x s.
Proof.
  rewrite existsb_exists. split.
  - intros (y & Hy & H). apply eqb_spec in H. now subst.
  - intros H. exists x. split; [exact H | now apply eqb_spec].
Qed.

Lemma setAdd_In (s : list A) (x y : A) : In y (setAdd eqb s x) <-> In y s \/ y = x.
Proof.
  unfold setAdd. destruct (existsb (eqb x) s) eqn:E.
  - apply existsb_eqb_In in E. split; [auto | intros [H | ->]; auto].
  - rewrite in_app_iff. simpl. intuition auto.
Qed.

Lemma setAdd_NoDup (s : list A) (x : A) : NoDup s -> NoDup (setAdd eqb s x).
Proof.
  intros H. unfold setAdd. destruct (existsb (eqb x) s) eqn:E; [exact H |].
  apply NoDup_app; auto.
  - repeat constructor. simpl. tauto.
  - intros a Ha [-> | []]. apply existsb_eqb_In in Ha. congruence.
Qed.

Lemma fold_setAdd_In (l s : list A) (y : A) :
  In y (fold_left (setAdd eqb) l s) <-> In y s \/ In y l.
Proof.
  revert s. induction l as [| x l IH]; intros s; simpl; [tauto |].
  rewrite IH, setAdd_In. intuition auto.
Qed.

Lemma fold_setAdd_NoDup (l s : list A) : NoDup s -> NoDup (fold_left (setAdd eqb) l s).
Proof.
  revert s. induction l as [| x l IH]; intros s H; simpl; [exact H |].
  apply IH, setAdd_NoDup, H.
Qed.

End Sets.

Section Maps.

Variable A : Type.

Lemma objGet_None (o : list (string * A)) (k : string) :
  objGet o k = None <-> ~ In k (map fst o).
Proof.
  induction o as [| [k' v] o IH]; simpl; [tauto |].
  destruct (String.eqb_spec k' k) as [-> | Hne].
  - split; [discriminate | tauto].
  - rewrite IH. tauto.
Qed.

Lemma objGet_Some_In (o : list (string * A)) (k : string) (v : A) :
  objGet o k = Some v -> In (k, v) o.
Proof.
  induction o as [| [k' v'] o IH]; simpl; [discriminate |].
  destruct (String.eqb_spec k' k) as [-> | Hne].
  - intros H. injection H as ->. now left.
  - auto.
Qed.

Lemma mapHas_In (o : list (string * A)) (k : string) :
  mapHas o k = true <-> In k (map fst o).
Proof.
  unfold mapHas. destruct (objGet o k) eqn:E.
  - split; [intros _ | reflexivity].
    apply objGet_Some_In in E. now apply (in_map fst) in E.
  - apply objGet_None in E. split; [discriminate | tauto].
Qed.

(** An object whose entry for each key [k] of [ks] is [h k]. *)
Lemma objGet_map (h : string -> A) (ks : list string) (k : string) :
  objGet (map (fun k' => (k', h k')) ks) k =
  if existsb (String.eqb k) ks then Some (h k) else None.
Proof.
  induction ks as [| k' ks IH]; simpl; [reflexivity |].
  rewrite (String.eqb_sym k k').
  destruct (String.eqb_spec k' k) as [-> | Hne]; [reflexivity | exact IH].
Qed.

Lemma objSet_map_absent (h : string -> A) (ks : list string) (k : string) (v : A) :
  existsb (String.eqb k) ks = false ->
  objSet (map (fun k' => (k', h k')) ks) k v =
  map (fun k' => (k', h k')) ks ++ [(k, v)].
Proof.
  induction ks as [| k' ks IH]; simpl; [reflexivity |].
  rewrite (String.eqb_sym k k').
  destruct (String.eqb_spec k' k) as [-> | Hne]; [discriminate |].
  simpl. intros H. now rewrite IH.
Qed.

Lemma objSet_map_present (h : string -> A) (ks : list string) (k : string) (v : A) :
  existsb (String.eqb k) ks = true -> NoDup ks ->
  objSet (map (fun k' => (k', h k')) ks) k v =
  map (fun k' => (k', if String.eqb k' k then v else h k')) ks.
Proof.
  induction ks as [| k' ks IH]; simpl; [discriminate |].
  rewrite (String.eqb_sym k k'). intros H Hnd.
  inversion Hnd as [| ? ? Hk' Hnd']; subst.
  destruct (String.eqb_spec k' k) as [-> | Hne].
  - f_equal. apply map_ext_in. intros a Ha.
    destruct (String.eqb_spec a k) as [-> | _]; [contradiction | reflexivity].
  - simpl in H. now rewrite IH.
Qed.

Lemma objSet_absent (o : list (string * A)) (k : string) (v : A) :
  objGet o k = None -> objSet o k v = o ++ [(k, v)].
Proof.
  induction o as [| [k' v'] o IH]; simpl; [reflexivity |].
  destruct (String.eqb k' k); [discriminate |].
  intros H. now rewrite IH.
Qed.

Lemma objGet_app_last (o : list (string * A)) (k : string) (v : A) :
  objGet o k = None -> objGet (o ++ [(k, v)]) k = Some v.
Proof.
  induction o as [| [k' v'] o IH]; simpl.
  - now rewrite String.eqb_refl.
  - destruct (String.eqb k' k); [discriminate | exact IH].
Qed.

Lemma objSet_app_last (o : list (string * A)) (k : string) (v v' : A) :
  objGet o k = None -> objSet (o ++ [(k, v)]) k v' = o ++ [(k, v')].
Proof.
  induction o as [| [k' v''] o IH]; simpl.
  - now rewrite String.eqb_refl.
  - destruct (String.eqb k' k); [discriminate |].
    intros H. now rewrite IH.
Qed.

End Maps.

End ContainerFacts.

(* ------------------------------------------------------------------ *)
(** ** The filter *)

Import JsStringFacts ContainerFacts.

Lemma filter_all (A : Type) (f : A -> bool) (l : list A) :
  (forall x, In x l -> f x = true) -> filter f l = l.
Proof.
  induction l as [| x l IH]; intros H; simpl; [reflexivity |].
  rewrite (H x) by now left. f_equal. apply IH. intros y Hy. apply H. now right.
Qed.

Lemma matchesSearch_blank (q : string) (u : AzureUpdate) :
  JsString.allWhiteSpace q = true -> matchesSearch q u = true.
Proof. intros H. unfold matchesSearch. now rewrite trim_eqb_empty, H. Qed.

Lemma matchesSearch_sameModuloCase (q1 q2 : string) (u : AzureUpdate) :
  JsString.sameModuloCase q1 q2 -> matchesSearch q1 u = matchesSearch q2 u.
Proof.
  intros H. unfold matchesSearch. rewrite !trim_eqb_empty.
  rewrite (sameModuloCase_allWhiteSpace H).
  apply toLowerCase_eq_iff in H. now rewrite H.
Qed.

Lemma find_key_None (w : string) (ws : list WeekEntry) :
  ~ In w (map key ws) -> find (fun e => String.eqb (key e) w) ws = None.
Proof.
  induction ws as [| e ws IH]; simpl; [reflexivity |].
  intros H. destruct (String.eqb_spec (key e) w) as [E | _]; [tauto |].
  apply IH. tauto.
Qed.

(** C6: filtering with the default criteria (empty search text, no
    category, week ["all"]) is the identity: the result is the collection
    itself, element for element and in order, whatever the week buckets. *)
Theorem filter_default_identity (DateParse : string -> option Z)
    (R : list AzureUpdate) (ws : list WeekEntry) :
  filteredUpdates DateParse R "" None "all" ws = R.
Proof.
  unfold filteredUpdates. apply filter_all. intros u _.
  rewrite matchesSearch_blank by reflexivity. reflexivity.
Qed.

(** C7: the search is case-insensitive.  Search texts that differ only in
    letter case select the same records, whatever the other criteria; in
    particular ["AZURE"] and ["azure"] do. *)
Theorem search_case_insensitive (DateParse : string -> option Z)
    (R : list AzureUpdate) (c : option DomainCategory) (w : string)
    (ws : list WeekEntry) :
  (forall q1 q2, JsString.sameModuloCase q1 q2 ->
     filteredUpdates DateParse R q1 c w ws = filteredUpdates DateParse R q2 c w ws) /\
  filteredUpdates DateParse R "AZURE" c w ws = filteredUpdates DateParse R "azure" c w ws.
Proof.
  assert (H : forall q1 q2, JsString.sameModuloCase q1 q2 ->
     filteredUpdates DateParse R q1 c w ws = filteredUpdates DateParse R q2 c w ws).
  { intros q1 q2 Hq. unfold filteredUpdates. apply filter_ext. intros u.
    now rewrite (matchesSearch_sameModuloCase u Hq). }
  split; [exact H |].
  apply H. apply toLowerCase_eq_iff. reflexivity.
Qed.

Lemma search_case_insensitive_witness :
  JsString.sameModuloCase "Cosmos" "cOSMOS" /\
  filteredUpdates IsoDate.parse Sample.records "Cosmos" None "all" Sample.weeks =
  filteredUpdates IsoDate.parse Sample.records "cOSMOS" None "all" Sample.weeks /\
  filteredUpdates IsoDate.parse Sample.records "cOSMOS" None "all" Sample.weeks =
  [Sample.record2].
Proof.
  assert (H : JsString.sameModuloCase "Cosmos" "cOSMOS")
    by (apply toLowerCase_eq_iff; reflexivity).
  split; [exact H |]. split; [| reflexivity].
  exact (proj1 (search_case_insensitive IsoDate.parse Sample.records None "all"
                  Sample.weeks) "Cosmos" "cOSMOS" H).
Defined.

(** C9: a search text of white space only imposes no constraint.  With no
    category and the week ["all"] the filter returns the collection itself,
    and [hasActiveFilters] counts such a text as it counts the empty
    text: with no category and the week ["all"] no filter is active. *)
Theorem whitespace_search_no_constraint (DateParse : string -> option Z)
    (R : list AzureUpdate) (ws : list WeekEntry) (s : AppState) :
  JsString.allWhiteSpace (searchQuery s) = true ->
  filteredUpdates DateParse R (searchQuery s) None "all" ws = R /\
  hasActiveFilters s = hasActiveFilters (applySet s (setSearchQuery "")) /\
  (selectedDomain s = None -> selectedWeek s = "all" -> hasActiveFilters s = false).
Proof.
  intros H. split; [| split].
  - unfold filteredUpdates. apply filter_all. intros u _.
    now rewrite matchesSearch_blank.
  - unfold hasActiveFilters. simpl. now rewrite trim_eqb_empty, H.
  - intros Hd Hw. unfold hasActiveFilters.
    now rewrite trim_eqb_empty, H, Hd, Hw.
Qed.

Lemma whitespace_search_no_constraint_witness :
  let s := applySet (applySet (applySet Sample.state (setSearchQuery "   "))
                       (setSelectedDomain None)) (setSelectedWeek "all") in
  searchQuery s <> "" /\
  filteredUpdates IsoDate.parse Sample.records (searchQuery s) None "all" Sample.weeks =
  Sample.records /\
  hasActiveFilters s = false.
Proof.
  intros s.
  destruct (@whitespace_search_no_constraint IsoDate.parse Sample.records Sample.weeks s
              eq_refl) as (H1 & _ & H3).
  split; [discriminate |]. split; [exact H1 | exact (H3 eq_refl eq_refl)].
Defined.

(** C10: a week key that names no bucket is ignored.  When the key is not
    the key of any bucket in force (in particular: of any bucket derived
    from the collection), the week test holds of every record, and the
    filter returns what it returns for the week ["all"]. *)
Theorem unknown_week_ignored (DateParse : string -> option Z)
    (R : list AzureUpdate) (ws : list WeekEntry) (q : string)
    (c : option DomainCategory) (w : string) :
  ~ In w (map key ws) ->
  (forall u, matchesWeek DateParse w ws u = true) /\
  filteredUpdates DateParse R q c w ws = filteredUpdates DateParse R q c "all" ws.
Proof.
  intros H.
  assert (Hw : forall u, matchesWeek DateParse w ws u = true).
  { intros u. unfold matchesWeek. rewrite (find_key_None _ _ H).
    now destruct (negb (w =? "all")%string). }
  split; [exact Hw |].
  unfold filteredUpdates. apply filter_ext. intros u. now rewrite Hw.
Qed.

Lemma unknown_week_ignored_witness :
  availableWeeks 0 IsoDate.parse Sample.records = Some Sample.weeks /\
  "2024-03-17T00:00:00.000Z" <> "all" /\
  ~ In "2024-03-17T00:00:00.000Z" (map key Sample.weeks) /\
  filteredUpdates IsoDate.parse Sample.records "" None "2024-03-17T00:00:00.000Z"
    Sample.weeks = Sample.records.
Proof.
  assert (H : ~ In "2024-03-17T00:00:00.000Z" (map key Sample.weeks)).
  { vm_compute. intros [H | [H | []]]; discriminate. }
  split; [reflexivity |]. split; [discriminate |]. split; [exact H |].
  rewrite (proj2 (unknown_week_ignored IsoDate.parse Sample.records Sample.weeks ""
                    None "2024-03-17T00:00:00.000Z" H)).
  reflexivity.
Defined.

(* ------------------------------------------------------------------ *)
(** ** The view state *)

(** C5: from any state, [handleClearFilters] leads to exactly one rendered
    state (its three setter calls make one transition, not three), in which
    the search text is empty, no category is selected and the week is
    ["all"], the other fields being as they were; in that state the badge
    count is 0, no filter is active and no badge is shown. *)
Theorem clearFilters_atomic_reset (s : AppState) :
  rendersAfter s handleClearFilters =
  [ {| updates := updates s; searchQuery := ""; selectedDomain := None;
       selectedWeek := "all"; viewMode := viewMode s;
       showFilters := showFilters s |} ] /\
  (forall s', In s' (rendersAfter s handleClearFilters) ->
     activeFilterCount s' = 0 /\ hasActiveFilters s' = false /\ filterBadge s' = None).
Proof.
  split; [reflexivity |].
  intros s' [<- | []]. repeat split.
Qed.

(* ------------------------------------------------------------------ *)
(** ** The categories *)

Lemma domainString_inj (a b : DomainCategory) :
  domainString a = domainString b -> a = b.
Proof. destruct a, b; intros H; try reflexivity; discriminate H. Qed.

Lemma domainEqb_spec (a b : DomainCategory) : domainEqb a b = true <-> a = b.
Proof.
  unfold domainEqb. rewrite String.eqb_eq. split; [apply domainString_inj | now intros ->].
Qed.

Lemma domainString_truthy (d : DomainCategory) : JsString.truthy (domainString d) = true.
Proof. now destruct d. Qed.

Lemma collect_domains_In (R : list AzureUpdate) (s : list DomainCategory) (d : DomainCategory) :
  In d (fold_left (fun domains update => fold_left (setAdd domainEqb) (domain update) domains)
          R s) <->
  In d s \/ exists u, In u R /\ In d (domain u).
Proof.
  revert s. induction R as [| u R IH]; intros s; simpl.
  - split; [auto | intros [H | (u & [] & _)]; exact H].
  - rewrite IH, (@fold_setAdd_In _ _ domainEqb_spec). split.
    + intros [[H | H] | (v & Hv & H)]; eauto.
    + intros [H | (v & [<- | Hv] & H)]; eauto.
Qed.

Lemma collect_domains_NoDup (R : list AzureUpdate) (s : list DomainCategory) :
  NoDup s ->
  NoDup (fold_left (fun domains update => fold_left (setAdd domainEqb) (domain update) domains)
           R s).
Proof.
  revert s. induction R as [| u R IH]; intros s H; simpl; [exact H |].
  apply IH, (@fold_setAdd_NoDup _ _ domainEqb_spec), H.
Qed.

Lemma StronglySorted_strict (A : Type) (le lt : A -> A -> Prop) (l : list A) :
  (forall a b, le a b -> a <> b -> lt a b) ->
  StronglySorted le l -> NoDup l -> StronglySorted lt l.
Proof.
  intros Hlt Hs. induction Hs as [| x l Hs IH Hx]; intros Hnd; [constructor |].
  inversion Hnd as [| ? ? Hin Hnd']; subst.
  constructor; [now apply IH |].
  rewrite Forall_forall in *. intros y Hy.
  apply Hlt; [now apply Hx |]. intros ->. contradiction.
Qed.

(** C4: [allDomains] is the union of the categories of the records, each
    once, in strictly ascending code-unit order of their names; the empty
    collection has no category. *)
Theorem allDomains_sorted_set (R : list AzureUpdate) :
  (forall d, In d (allDomains R) <-> exists u, In u R /\ In d (domain u)) /\
  NoDup (allDomains R) /\
  StronglySorted (fun a b => JsString.lt (domainString a) (domainString b) = true)
    (allDomains R) /\
  allDomains [] = [].
Proof.
  unfold allDomains.
  set (cmp := fun x y => sortCompare (domainString x) (domainString y)).
  set (domains := fold_left _ R []).
  assert (Hnd : NoDup (sortBy cmp domains))
    by (apply sortBy_NoDup, collect_domains_NoDup; constructor).
  repeat split; try assumption.
  - intros H. apply sortBy_In, collect_domains_In in H. destruct H as [[] | H]; exact H.
  - intros H. apply sortBy_In, collect_domains_In. now right.
  - apply StronglySorted_strict
      with (le := fun a b => JsString.lt (domainString b) (domainString a) = false);
      [| | exact Hnd].
    + intros a b Hle Hne.
      destruct (JsString.lt (domainString a) (domainString b)) eqn:E; [reflexivity |].
      exfalso. apply Hne, domainString_inj, lt_total; assumption.
    + apply sortBy_sorted with (P := fun _ => True).
      * intros x y _ _. unfold cmp, sortCompare.
        destruct (JsString.lt (domainString x) (domainString y)) eqn:E1;
          [intros _; now apply lt_asym |].
        destruct (JsString.lt (domainString y) (domainString x)); [lia | reflexivity].
      * intros x y _ _. unfold cmp, sortCompare.
        destruct (JsString.lt (domainString x) (domainString y)) eqn:E1; [lia |].
        reflexivity.
      * intros x y z _ _ _. apply le_trans.
      * apply Forall_forall. intros; exact I.
Qed.

(* ------------------------------------------------------------------ *)
(** ** The month groups *)

Lemma firstSeen_In (k : string) (l : list string) : In k (Spec.firstSeen l) <-> In k l.
Proof.
  induction l as [| a l IH]; simpl; [tauto |].
  rewrite filter_In, IH, negb_true_iff, String.eqb_neq.
  destruct (String.eqb_spec a k) as [-> | Hne]; [tauto |].
  split; [tauto |]. intros [H | H]; [tauto |]. right. split; [exact H | congruence].
Qed.

Lemma firstSeen_NoDup (l : list string) : NoDup (Spec.firstSeen l).
Proof.
  induction l as [| a l IH]; simpl; constructor.
  - rewrite filter_In, negb_true_iff, String.eqb_neq. tauto.
  - now apply NoDup_filter.
Qed.

Lemma existsb_eqb_string (k : string) (l : list string) :
  existsb (String.eqb k) l = true <-> In k l.
Proof. apply existsb_eqb_In. intros x y. apply String.eqb_eq. Qed.

Lemma existsb_firstSeen (k : string) (l : list string) :
  existsb (String.eqb k) (Spec.firstSeen l) = existsb (String.eqb k) l.
Proof.
  apply eq_true_iff_eq. now rewrite !existsb_eqb_string, firstSeen_In.
Qed.

(** One more member at the end: it is new, or it changes nothing. *)
Lemma firstSeen_snoc (l : list string) (k : string) :
  Spec.firstSeen (l ++ [k]) =
  if existsb (String.eqb k) l then Spec.firstSeen l else Spec.firstSeen l ++ [k].
Proof.
  induction l as [| a l IH]; simpl; [reflexivity |].
  rewrite IH. destruct (String.eqb_spec k a) as [-> | Hne]; simpl.
  - destruct (existsb (String.eqb a) l); [reflexivity |].
    rewrite filter_app. simpl. rewrite String.eqb_refl. simpl.
    now rewrite app_nil_r.
  - destruct (existsb (String.eqb k) l); [reflexivity |].
    rewrite filter_app. simpl.
    destruct (String.eqb_spec k a) as [E | _]; [contradiction | reflexivity].
Qed.

Lemma filter_snoc (A : Type) (f : A -> bool) (l : list A) (x : A) :
  filter f (l ++ [x]) = filter f l ++ (if f x then [x] else []).
Proof. rewrite filter_app. reflexivity. Qed.

Lemma filter_none (A : Type) (f : A -> bool) (l : list A) :
  (forall x, In x l -> f x = false) -> filter f l = [].
Proof.
  induction l as [| x l IH]; intros H; simpl; [reflexivity |].
  rewrite (H x) by now left. apply IH. intros y Hy. apply H. now right.
Qed.

Section MonthGroups.

Variable LocalTZA : Z.
Variable DateParse : string -> option Z.

(** The groups, in closed form: one group for each month label of the
    collection, in first-seen order, holding the records with that label
    in the order of the collection. *)
Lemma groupedByMonth_eq (R : list AzureUpdate) :
  groupedByMonth LocalTZA DateParse R =
  map (fun k => (k, filter (fun u => String.eqb (monthKey LocalTZA DateParse u) k) R))
      (Spec.firstSeen (map (monthKey LocalTZA DateParse) R)).
Proof.
  induction R as [| u R IH] using rev_ind; [reflexivity |].
  unfold groupedByMonth in *. rewrite fold_left_app. simpl. rewrite IH. clear IH.
  set (monthOf := monthKey LocalTZA DateParse).
  set (k := monthOf u).
  set (h := fun k' => filter (fun v => String.eqb (monthOf v) k') R).
  assert (Hks : NoDup (Spec.firstSeen (map monthOf R))) by apply firstSeen_NoDup.
  rewrite map_app. change (map monthOf [u]) with [k]. rewrite firstSeen_snoc.
  unfold groupStep. fold monthOf. fold k.
  change (map (fun k' => (k', filter (fun v => String.eqb (monthOf v) k') R)))
    with (map (fun k' => (k', h k'))).
  rewrite objGet_map, existsb_firstSeen.
  destruct (existsb (String.eqb k) (map monthOf R)) eqn:E.
  - rewrite objGet_map, existsb_firstSeen, E.
    rewrite objSet_map_present by (rewrite ?existsb_firstSeen; assumption).
    apply map_ext. intros k'. f_equal. rewrite filter_snoc. fold k. unfold h.
    destruct (String.eqb_spec k k') as [<- | Hne].
    + now rewrite String.eqb_refl.
    + destruct (String.eqb_spec k' k) as [-> | _]; [contradiction |].
      now rewrite app_nil_r.
  - assert (Hnone : objGet (map (fun k' => (k', h k')) (Spec.firstSeen (map monthOf R))) k
                    = None) by now rewrite objGet_map, existsb_firstSeen, E.
    rewrite (objSet_absent _ _ _ Hnone), (objGet_app_last _ _ _ Hnone),
      (objSet_app_last _ _ _ _ Hnone).
    rewrite map_app. simpl. f_equal.
    + apply map_ext_in. intros k' Hk'. f_equal. rewrite filter_snoc. fold k.
      destruct (String.eqb_spec k k') as [<- | Hne]; [| now rewrite app_nil_r].
      rewrite firstSeen_In, <- existsb_eqb_string in Hk'. congruence.
    + f_equal. f_equal. rewrite filter_snoc. fold k. rewrite String.eqb_refl.
      rewrite filter_none; [reflexivity |].
      intros v Hv. apply String.eqb_neq. intros Hk.
      assert (In k (map monthOf R)) by (rewrite <- Hk; now apply in_map).
      apply existsb_eqb_string in H. congruence.
Qed.

End MonthGroups.

(** Counting by key: when every member of [R] has its key in the
    duplicate-free [ks], the classes of the keys add up to [R]. *)
Lemma count_by_key_step (A : Type) (g : string -> list A) (x : string) (u : A)
    (ks : list string) :
  NoDup ks ->
  list_sum (map (fun k => List.length (if String.eqb x k then u :: g k else g k)) ks) =
  ((if existsb (String.eqb x) ks then 1 else 0) +
   list_sum (map (fun k => List.length (g k)) ks))%nat.
Proof.
  induction 1 as [| k ks Hk Hnd IH]; simpl; [reflexivity |].
  rewrite IH. destruct (String.eqb_spec x k) as [-> | Hne]; simpl.
  - replace (existsb (String.eqb k) ks) with false; [lia |].
    symmetry. apply not_true_iff_false. now rewrite existsb_eqb_string.
  - lia.
Qed.

Lemma count_by_key (A : Type) (f : A -> string) (ks : list string) (R : list A) :
  NoDup ks -> (forall u, In u R -> In (f u) ks) ->
  list_sum (map (fun k => List.length (filter (fun u => String.eqb (f u) k) R)) ks) =
  List.length R.
Proof.
  intros Hnd. induction R as [| u R IH]; intros Hin; simpl.
  - clear Hnd Hin. induction ks as [| k ks IHk]; simpl; [reflexivity | exact IHk].
  - rewrite <- IH by (intros v Hv; apply Hin; now right).
    set (g := fun k => filter (fun v => String.eqb (f v) k) R).
    transitivity
      (list_sum (map (fun k => List.length (if String.eqb (f u) k then u :: g k else g k))
                   ks)).
    + reflexivity.
    + rewrite (count_by_key_step g (f u) u Hnd).
      now rewrite (proj2 (existsb_eqb_string (f u) ks) (Hin u (or_introl eq_refl))).
Qed.

Lemma decimal_inj (a b : Z) : 0 <= a -> 0 <= b -> decimal a = decimal b -> a = b.
Proof.
  intros Ha Hb H. unfold decimal in H.
  assert (Hn : forall n, N.to_uint n <> Decimal.Nil).
  { intros [| p]; simpl; [discriminate | apply DecimalPos.Unsigned.to_uint_nonnil]. }
  pose proof (NilZero.usu _ (Hn (Z.to_N a))) as H1.
  pose proof (NilZero.usu _ (Hn (Z.to_N b))) as H2.
  rewrite H in H1. rewrite H1 in H2. injection H2 as H2.
  apply DecimalN.Unsigned.to_uint_inj in H2. lia.
Qed.

Lemma append_inv_head (p a b : string) : (p ++ a)%string = (p ++ b)%string -> a = b.
Proof. induction p as [| c p IH]; simpl; intros H; [exact H | injection H as H; auto]. Qed.

Lemma month_cases (m : Z) :
  0 <= m <= 11 ->
  m = 0 \/ m = 1 \/ m = 2 \/ m = 3 \/ m = 4 \/ m = 5 \/ m = 6 \/ m = 7 \/ m = 8 \/
  m = 9 \/ m = 10 \/ m = 11.
Proof. lia. Qed.

(** A month label names one month of one year. *)
Lemma monthLabel_inj (m1 m2 : Z) (y1 y2 : string) :
  0 <= m1 <= 11 -> 0 <= m2 <= 11 ->
  (monthLong m1 ++ " " ++ y1)%string = (monthLong m2 ++ " " ++ y2)%string ->
  m1 = m2 /\ y1 = y2.
Proof.
  intros H1 H2.
  apply month_cases in H1. apply month_cases in H2.
  repeat (destruct H1 as [-> | H1]); try subst m1;
    repeat (destruct H2 as [-> | H2]); try subst m2;
    cbn [monthLong]; intros H;
    first [ split; [reflexivity | now apply append_inv_head in H; injection H]
          | exfalso; simpl in H; congruence ].
Qed.

(** C3, as amended: [groupedByMonth] partitions the collection by the
    month label of each record's date, the text that the host prints for
    the parsed date in its local time zone.  Its keys are the labels in
    first-seen order, each once; the group of a label holds exactly the
    records with that label, in the order of the collection, and is not
    empty; every record is in the group of its label; the sizes of the
    groups add up to the length of the collection.  For dates that parse,
    to an instant of the year 1 or later in local time, two records have
    the same label exactly when the instants have the same local year and
    month. *)
Theorem groupedByMonth_partition (LocalTZA : Z) (DateParse : string -> option Z)
    (R : list AzureUpdate) :
  let groups := groupedByMonth LocalTZA DateParse R in
  let monthOf := monthKey LocalTZA DateParse in
  map fst groups = Spec.firstSeen (map monthOf R) /\
  NoDup (map fst groups) /\
  (forall k g, In (k, g) groups ->
     g = filter (fun u => String.eqb (monthOf u) k) R /\ g <> []) /\
  (forall u, In u R -> exists g, In (monthOf u, g) groups /\ In u g) /\
  list_sum (map (fun g => List.length (snd g)) groups) = List.length R /\
  (forall u v tu tv,
     newDate DateParse (date u) = Some tu -> newDate DateParse (date v) = Some tv ->
     1 <= YearFromTime (LocalTime LocalTZA tu) ->
     1 <= YearFromTime (LocalTime LocalTZA tv) ->
     (monthOf u = monthOf v <->
      YearFromTime (LocalTime LocalTZA tu) = YearFromTime (LocalTime LocalTZA tv) /\
      MonthFromTime (LocalTime LocalTZA tu) = MonthFromTime (LocalTime LocalTZA tv))).
Proof.
  intros groups monthOf. subst groups. rewrite groupedByMonth_eq. fold monthOf.
  set (ks := Spec.firstSeen (map monthOf R)).
  assert (Hks : map fst (map (fun k => (k, filter (fun u => String.eqb (monthOf u) k) R)) ks)
                = ks).
  { rewrite map_map. simpl. apply map_id. }
  split; [exact Hks |]. split; [rewrite Hks; apply firstSeen_NoDup |].
  split; [| split; [| split]].
  - intros k g H. apply in_map_iff in H as (k' & H & Hk'). injection H as -> <-.
    split; [reflexivity |].
    apply firstSeen_In, in_map_iff in Hk' as (u & Hu & Hin).
    intros H0. assert (Hg : In u (filter (fun u => String.eqb (monthOf u) k) R)).
    { apply filter_In. split; [exact Hin | now apply String.eqb_eq]. }
    rewrite H0 in Hg. exact Hg.
  - intros u Hu. exists (filter (fun v => String.eqb (monthOf v) (monthOf u)) R). split.
    + apply in_map_iff. exists (monthOf u). split; [reflexivity |].
      apply firstSeen_In. now apply in_map.
    + apply filter_In. split; [exact Hu | apply String.eqb_refl].
  - rewrite map_map. simpl.
    apply count_by_key; [apply firstSeen_NoDup |].
    intros u Hu. apply firstSeen_In. now apply in_map.
  - intros u v tu tv Hu Hv Hyu Hyv. unfold monthOf, monthKey. rewrite Hu, Hv.
    unfold toLocaleDateString_yearMonth.
    pose proof (JsDateFacts.MonthFromTime_range (LocalTime LocalTZA tu)) as Hmu.
    pose proof (JsDateFacts.MonthFromTime_range (LocalTime LocalTZA tv)) as Hmv.
    revert Hyu Hyv Hmu Hmv.
    generalize (YearFromTime (LocalTime LocalTZA tu)) (YearFromTime (LocalTime LocalTZA tv))
               (MonthFromTime (LocalTime LocalTZA tu)) (MonthFromTime (LocalTime LocalTZA tv)).
    intros yu yv mu mv Hyu Hyv Hmu Hmv.
    unfold eraYear.
    destruct (Z.leb_spec yu 0) as [Hu0 | Hu0]; [lia |].
    destruct (Z.leb_spec yv 0) as [Hv0 | Hv0]; [lia |].
    split.
    + intros Heq. apply monthLabel_inj in Heq as [-> Heq]; try assumption.
      apply decimal_inj in Heq; [auto | lia | lia].
    + intros [-> ->]. reflexivity.
Qed.

(** C3, as the claim words it, fails: the groups are not those of the
    calendar month and year that the date strings name.  On a host five
    hours west of UTC the dates 2024-03-01 and 2024-03-02, both of March
    2024, are read as UTC midnight and fall into the groups of February and
    of March; and the dates 0000-03-05 and 0001-03-05, of different years,
    fall into one group, since the year 0 is printed as the year 1 of its
    era. *)
Lemma groupedByMonth_partition_counterexample :
  (Spec.calendarMonth (date Sample.marchFirst) = Some (2024, 3) /\
   Spec.calendarMonth (date Sample.marchSecond) = Some (2024, 3) /\
   groupedByMonth (-18000000) IsoDate.parse [Sample.marchFirst; Sample.marchSecond] =
     [("February 2024", [Sample.marchFirst]); ("March 2024", [Sample.marchSecond])] /\
   ~ (Spec.sameGroup
        (groupedByMonth (-18000000) IsoDate.parse [Sample.marchFirst; Sample.marchSecond])
        Sample.marchFirst Sample.marchSecond <->
      Spec.calendarMonth (date Sample.marchFirst) =
      Spec.calendarMonth (date Sample.marchSecond))) /\
  (groupedByMonth 0 IsoDate.parse [Sample.yearZero; Sample.yearOne] =
     [("March 1", [Sample.yearZero; Sample.yearOne])] /\
   ~ (Spec.sameGroup (groupedByMonth 0 IsoDate.parse [Sample.yearZero; Sample.yearOne])
        Sample.yearZero Sample.yearOne <->
      Spec.calendarMonth (date Sample.yearZero) = Spec.calendarMonth (date Sample.yearOne))).
Proof.
  assert (H1 : groupedByMonth (-18000000) IsoDate.parse
                 [Sample.marchFirst; Sample.marchSecond] =
               [("February 2024", [Sample.marchFirst]); ("March 2024", [Sample.marchSecond])])
    by (vm_compute; reflexivity).
  assert (H2 : groupedByMonth 0 IsoDate.parse [Sample.yearZero; Sample.yearOne] =
               [("March 1", [Sample.yearZero; Sample.yearOne])])
    by (vm_compute; reflexivity).
  split.
  - split; [vm_compute; reflexivity |]. split; [vm_compute; reflexivity |].
    split; [exact H1 |]. rewrite H1. intros [_ H].
    destruct H as (k & g & Hin & Hu & Hv); [vm_compute; reflexivity |].
    destruct Hin as [Hin | [Hin | []]]; injection Hin as <- <-.
    + destruct Hv as [Hv | []]. discriminate Hv.
    + destruct Hu as [Hu | []]. discriminate Hu.
  - split; [exact H2 |]. rewrite H2. intros [H _].
    assert (Hs : Spec.sameGroup [("March 1", [Sample.yearZero; Sample.yearOne])]
                   Sample.yearZero Sample.yearOne).
    { exists "March 1", [Sample.yearZero; Sample.yearOne].
      split; [now left |]. split; [now left | right; now left]. }
    apply H in Hs. vm_compute in Hs. discriminate Hs.
Qed.

(* ------------------------------------------------------------------ *)
(** ** The week buckets *)

Lemma StronglySorted_map_in (A B : Type) (f : A -> B) (r : A -> A -> Prop)
    (r' : B -> B -> Prop) (l : list A) :
  (forall a b, In a l -> In b l -> r a b -> r' (f a) (f b)) ->
  StronglySorted r l -> StronglySorted r' (map f l).
Proof.
  intros Hr Hs. induction Hs as [| x l Hs IH Hx]; simpl; constructor.
  - apply IH. intros a b Ha Hb. apply Hr; now right.
  - rewrite Forall_forall in *. intros y Hy.
    apply in_map_iff in Hy as (b & <- & Hb).
    apply Hr; [now left | now right | now apply Hx].
Qed.

Section WeekBuckets.

Import JsDateFacts.

Variable LocalTZA : Z.
Variable DateParse : string -> option Z.

(** An entry of the [Map] of [availableWeeks], for the week from [s]. *)
Local Abbreviation pairOf := (fun s : Z => (isoString s, weekOf LocalTZA s)).

(** The time value of the date of a record. *)
Local Abbreviation timeOf :=
  (fun u : AzureUpdate => match DateParse (date u) with Some t => t | None => 0 end).

Local Abbreviation inRange := (fun s : Z => - maxTime <= s <= maxTime).

Lemma mapHas_pairs (ss : list Z) (s : Z) :
  Forall inRange ss -> inRange s ->
  mapHas (map pairOf ss) (isoString s) = existsb (Z.eqb s) ss.
Proof.
  intros Hss Hs. apply eq_true_iff_eq.
  rewrite mapHas_In, map_map, (existsb_eqb_In Z.eqb Z.eqb_eq). simpl.
  rewrite in_map_iff. split.
  - intros (s' & H & Hin). rewrite Forall_forall in Hss.
    apply isoString_inj in H; [now subst | now apply Hss | exact Hs].
  - intros H. now exists s.
Qed.

Lemma weeksStep_valid (ss : list Z) (u : AzureUpdate) (t : Z) :
  Forall inRange ss ->
  DateParse (date u) = Some t ->
  - maxTime + 7 * msPerDay <= t <= maxTime - 7 * msPerDay ->
  weeksStep LocalTZA DateParse (Some (map pairOf ss)) u =
  Some (map pairOf (setAdd Z.eqb ss (weekStart LocalTZA t))).
Proof.
  intros Hss Hu Ht.
  pose proof (weekStart_bounds LocalTZA t) as Hb.
  assert (Hmax : maxTime = 8640000000000000) by reflexivity.
  assert (Hday : msPerDay = 86400000) by reflexivity.
  unfold weeksStep, newDate. rewrite Hu.
  rewrite TimeClip_in_range by lia.
  rewrite getWeekRange_valid by exact Ht.
  cbn [start weekOf toISOString].
  rewrite mapHas_pairs by (try exact Hss; cbv beta; lia).
  unfold setAdd. destruct (existsb (Z.eqb (weekStart LocalTZA t)) ss); cbn [negb].
  - reflexivity.
  - now rewrite map_app.
Qed.

Lemma fold_weeksStep_valid (R : list AzureUpdate) (ss : list Z) :
  validDates DateParse R -> Forall inRange ss ->
  fold_left (weeksStep LocalTZA DateParse) R (Some (map pairOf ss)) =
  Some (map pairOf
          (fold_left (setAdd Z.eqb) (map (fun u => weekStart LocalTZA (timeOf u)) R) ss)).
Proof.
  revert ss. induction R as [| u R IH]; intros ss HR Hss; [reflexivity |].
  destruct (HR u (or_introl eq_refl)) as (t & Hu & Ht).
  cbn [fold_left map]. rewrite (weeksStep_valid _ Hss Hu Ht). rewrite Hu.
  apply IH.
  - intros v Hv. apply HR. now right.
  - unfold setAdd. destruct (existsb _ ss); [exact Hss |].
    apply Forall_app. split; [exact Hss |]. constructor; [| constructor].
    pose proof (weekStart_bounds LocalTZA t) as Hb.
    unfold maxTime, msPerDay in *. lia.
Qed.

(** The buckets of a collection with valid dates, in closed form: the
    distinct week starts of its dates, sorted downwards. *)
Lemma availableWeeks_valid (R : list AzureUpdate) :
  validDates DateParse R ->
  availableWeeks LocalTZA DateParse R =
  Some (map (entryOf LocalTZA)
          (sortBy (fun a b => b - a)
             (fold_left (setAdd Z.eqb) (map (fun u => weekStart LocalTZA (timeOf u)) R) []))).
Proof.
  intros HR. unfold availableWeeks.
  change (Some []) with (Some (map pairOf [])).
  rewrite (fold_weeksStep_valid HR (Forall_nil _)).
  rewrite (sortBy_map pairOf (fun a b => b - a)) by reflexivity.
  now rewrite map_map.
Qed.

(** The week starts of a collection: distinct, downwards, and those of
    its records. *)
Lemma weekStarts_spec (R : list AzureUpdate) :
  let starts :=
    sortBy (fun a b => b - a)
      (fold_left (setAdd Z.eqb) (map (fun u => weekStart LocalTZA (timeOf u)) R) []) in
  (forall s, In s starts <-> exists u, In u R /\ s = weekStart LocalTZA (timeOf u)) /\
  NoDup starts /\
  StronglySorted (fun a b => b < a) starts.
Proof.
  intros starts. subst starts.
  set (S := fold_left _ _ []).
  assert (Hnd : NoDup (sortBy (fun a b => b - a) S)).
  { apply sortBy_NoDup, (fold_setAdd_NoDup Z.eqb Z.eqb_eq). constructor. }
  split; [| split; [exact Hnd |]].
  - intros s. rewrite sortBy_In. unfold S.
    rewrite (fold_setAdd_In Z.eqb Z.eqb_eq), in_map_iff. simpl. split.
    + intros [[] | (u & <- & Hu)]. now exists u.
    + intros (u & Hu & ->). right. now exists u.
  - apply StronglySorted_strict with (le := fun a b => b <= a); [| | exact Hnd].
    + intros a b Hle Hne. lia.
    + apply sortBy_sorted with (P := fun _ => True).
      * intros; lia.
      * intros; lia.
      * intros; lia.
      * apply Forall_forall. intros; exact I.
Qed.

End WeekBuckets.

Lemma NoDup_map_Some (A : Type) (l : list A) : NoDup l -> NoDup (map Some l).
Proof.
  induction 1 as [| x l Hx Hnd IH]; simpl; constructor; [| exact IH].
  rewrite in_map_iff. intros (y & Hy & Hin). now injection Hy as ->.
Qed.

Lemma validDates_newDate (DateParse : string -> option Z) (R : list AzureUpdate)
    (u : AzureUpdate) :
  validDates DateParse R -> In u R ->
  exists t, DateParse (date u) = Some t /\ newDate DateParse (date u) = Some t /\
            - maxTime + 7 * msPerDay <= t <= maxTime - 7 * msPerDay.
Proof.
  intros HR Hu. destruct (HR u Hu) as (t & Ht & Hr). exists t.
  split; [exact Ht |]. split; [| exact Hr].
  unfold newDate. rewrite Ht. apply JsDateFacts.TimeClip_in_range.
  unfold maxTime, msPerDay in *. lia.
Qed.

(** C2: for a collection with valid dates, [availableWeeks] returns week
    buckets with these properties.  Each bucket is a seven-day window from a
    local Sunday midnight [s] to the last millisecond of the following
    Saturday, keyed by the ISO string of [s], and holds the date of some
    record.  No two buckets have the same start.  The buckets are in
    descending order of start and do not overlap: each one starts after
    the end of every bucket that follows it.  The date of every record lies
    in exactly one bucket. *)
Theorem availableWeeks_buckets (LocalTZA : Z) (DateParse : string -> option Z)
    (R : list AzureUpdate) :
  validDates DateParse R ->
  exists ws,
    availableWeeks LocalTZA DateParse R = Some ws /\
    (forall b, In b ws ->
       exists s,
         start (week b) = Some s /\ end_ (week b) = Some (s + 7 * msPerDay - 1) /\
         key b = isoString s /\
         sundayMidnight LocalTZA s /\
         WeekDay (LocalTime LocalTZA (s + 7 * msPerDay - 1)) = 6 /\
         exists u t, In u R /\ newDate DateParse (date u) = Some t /\
                     s <= t <= s + 7 * msPerDay - 1) /\
    NoDup (map (fun b => start (week b)) ws) /\
    StronglySorted
      (fun a b => exists sa sb eb,
           start (week a) = Some sa /\ start (week b) = Some sb /\
           end_ (week b) = Some eb /\ sb < sa /\ eb < sa) ws /\
    (forall u, In u R ->
       exists t b, newDate DateParse (date u) = Some t /\ In b ws /\
                   Spec.withinBucket t b /\
                   forall b', In b' ws -> Spec.withinBucket t b' -> b' = b).
Proof.
  intros HR.
  destruct (weekStarts_spec LocalTZA DateParse R) as (Hin & Hnd & Hsort).
  set (starts := sortBy _ _) in *.
  assert (Hstart : forall s, In s starts ->
            exists u t, In u R /\ newDate DateParse (date u) = Some t /\
                        s = weekStart LocalTZA t /\ s <= t <= s + 7 * msPerDay - 1).
  { intros s Hs. apply Hin in Hs as (u & Hu & ->).
    destruct (validDates_newDate _ HR Hu) as (t & Ht & Hnew & Hr).
    exists u, t. rewrite Ht.
    pose proof (JsDateFacts.weekStart_bounds LocalTZA t). repeat split; auto; lia. }
  assert (Hsun : forall s, In s starts -> sundayMidnight LocalTZA s).
  { intros s Hs. destruct (Hstart s Hs) as (u & t & _ & _ & -> & _).
    apply JsDateFacts.weekStart_sunday. }
  exists (map (entryOf LocalTZA) starts).
  split; [now apply availableWeeks_valid |].
  split; [| split; [| split]].
  - intros b Hb. apply in_map_iff in Hb as (s & <- & Hs). exists s.
    repeat split; try apply (Hsun s Hs).
    + apply (JsDateFacts.weekEnd_saturday (Hsun s Hs)).
    + destruct (Hstart s Hs) as (u & t & Hu & Ht & _ & Hr). now exists u, t.
  - rewrite map_map. simpl. now apply NoDup_map_Some.
  - apply StronglySorted_map_in with (r := fun a b => b < a); [| exact Hsort].
    intros a b Ha Hb Hlt. exists a, b, (weekEnd b).
    pose proof (JsDateFacts.sundayMidnight_gap (Hsun b Hb) (Hsun a Ha) Hlt).
    unfold weekEnd. repeat split; try lia.
  - intros u Hu.
    destruct (validDates_newDate _ HR Hu) as (t & Ht & Hnew & Hr).
    pose proof (JsDateFacts.weekStart_bounds LocalTZA t) as Hb.
    assert (Hs : In (weekStart LocalTZA t) starts).
    { apply Hin. exists u. rewrite Ht. auto. }
    exists t, (entryOf LocalTZA (weekStart LocalTZA t)).
    split; [exact Hnew |]. split; [now apply in_map |]. split.
    + exists (weekStart LocalTZA t), (weekEnd (weekStart LocalTZA t)).
      unfold weekEnd. repeat split; lia.
    + intros b' Hb' (s0 & e0 & H0 & H1 & Hr').
      apply in_map_iff in Hb' as (s' & <- & Hs').
      simpl in H0, H1. injection H0 as <-. injection H1 as <-. unfold weekEnd in Hr'.
      f_equal.
      pose proof (Hsun _ Hs) as Hsun1. pose proof (Hsun _ Hs') as Hsun2.
      destruct (Z.lt_trichotomy s' (weekStart LocalTZA t)) as [Hlt | [Heq | Hgt]];
        [| exact Heq |].
      * pose proof (JsDateFacts.sundayMidnight_gap Hsun2 Hsun1 Hlt). lia.
      * pose proof (JsDateFacts.sundayMidnight_gap Hsun1 Hsun2 Hgt). lia.
Qed.

Lemma availableWeeks_buckets_witness :
  validDates IsoDate.parse Sample.records /\
  exists ws, availableWeeks 0 IsoDate.parse Sample.records = Some ws /\
             map key ws = ["2024-03-10T00:00:00.000Z"; "2024-03-03T00:00:00.000Z"].
Proof.
  assert (H : validDates IsoDate.parse Sample.records).
  { intros u [<- | [<- | []]].
    - exists 1709596800000. split; [reflexivity |]. unfold maxTime, msPerDay. lia.
    - exists 1710201600000. split; [reflexivity |]. unfold maxTime, msPerDay. lia. }
  split; [exact H |].
  destruct (availableWeeks_buckets 0 H) as (ws & Hws & _).
  exists ws. split; [exact Hws |].
  vm_compute in Hws. injection Hws as <-. reflexivity.
Defined.

(* ------------------------------------------------------------------ *)
(** ** The filter against the predicates of the specification *)

Lemma find_key_Some (w : string) (ws : list WeekEntry) (b : WeekEntry) :
  NoDup (map key ws) -> In b ws -> key b = w ->
  find (fun e => String.eqb (key e) w) ws = Some b.
Proof.
  induction ws as [| e ws IH]; simpl; [tauto |].
  intros Hnd [-> | Hin] Hk.
  - now rewrite Hk, String.eqb_refl.
  - inversion Hnd as [| ? ? Hne Hnd']; subst.
    destruct (String.eqb_spec (key e) (key b)) as [E | _]; [| now apply IH].
    exfalso. apply Hne. rewrite E. now apply in_map.
Qed.

Lemma caseInsensitiveSubstring_iff (q s : string) :
  Spec.caseInsensitiveSubstring q s <->
  JsString.includes (JsString.toLowerCase s) (JsString.toLowerCase q) = true.
Proof.
  rewrite includes_toLowerCase_iff. unfold Spec.caseInsensitiveSubstring, Spec.isSubstring.
  split.
  - intros (m & Hm & pre & post & ->). now exists pre, m, post.
  - intros (pre & m & post & -> & Hm). exists m. split; [exact Hm | now exists pre, post].
Qed.

Lemma matchesSearch_iff (q : string) (r : AzureUpdate) :
  matchesSearch q r = true <-> Spec.searchPredicateBlank q r.
Proof.
  unfold matchesSearch, Spec.searchPredicateBlank.
  rewrite !orb_true_iff, trim_eqb_empty, !caseInsensitiveSubstring_iff. tauto.
Qed.

Lemma matchesDomain_iff (c : option DomainCategory) (r : AzureUpdate) :
  matchesDomain c r = true <-> Spec.categoryPredicate c r.
Proof.
  unfold matchesDomain, Spec.categoryPredicate. destruct c as [d |].
  - rewrite domainString_truthy. simpl.
    rewrite (existsb_eqb_In domainEqb domainEqb_spec). split.
    + intros H. right. now exists d.
    + intros [H | (d' & H & Hin)]; [discriminate | now injection H as ->].
  - split; auto.
Qed.

Lemma within_iff (d : Date) (b : WeekEntry) :
  dateGe d (start (week b)) && dateLe d (end_ (week b)) = true <->
  exists t, d = Some t /\ Spec.withinBucket t b.
Proof.
  unfold Spec.withinBucket, dateGe, dateLe.
  destruct d as [t |], (start (week b)) as [s |], (end_ (week b)) as [e |]; simpl.
  all: try (split;
            [ rewrite ?andb_false_r; discriminate
            | intros (t' & H & s' & e' & Hs & He & _); discriminate ]).
  rewrite andb_true_iff, !Z.leb_le. split.
  - intros H. exists t. split; [reflexivity |]. now exists s, e.
  - intros (t' & H & s' & e' & Hs & He & Hr).
    injection H as <-. injection Hs as <-. injection He as <-. exact Hr.
Qed.

Section FilterSpec.

Variable LocalTZA : Z.
Variable DateParse : string -> option Z.

Lemma fold_weeksStep_None (R : list AzureUpdate) :
  fold_left (weeksStep LocalTZA DateParse) R None = None.
Proof. induction R as [| u R IH]; simpl; [reflexivity | exact IH]. Qed.

Lemma weeksStep_NoDup (weeks weeks' : list (string * WeekRange)) (u : AzureUpdate) :
  NoDup (map fst weeks) ->
  weeksStep LocalTZA DateParse (Some weeks) u = Some weeks' ->
  NoDup (map fst weeks').
Proof.
  intros Hnd. unfold weeksStep.
  destruct (toISOString _) as [k |]; [| discriminate].
  intros H. injection H as <-.
  destruct (mapHas weeks k) eqn:E; simpl; [exact Hnd |].
  rewrite map_app. simpl. apply NoDup_app; auto.
  - repeat constructor. simpl. tauto.
  - intros a Ha [-> | []]. apply mapHas_In in Ha. congruence.
Qed.

Lemma fold_weeksStep_NoDup (R : list AzureUpdate) (weeks weeks' : list (string * WeekRange)) :
  NoDup (map fst weeks) ->
  fold_left (weeksStep LocalTZA DateParse) R (Some weeks) = Some weeks' ->
  NoDup (map fst weeks').
Proof.
  revert weeks. induction R as [| u R IH]; intros weeks Hnd; cbn [fold_left].
  - intros H. now injection H as <-.
  - destruct (weeksStep LocalTZA DateParse (Some weeks) u) as [weeks1 |] eqn:E.
    + apply IH. eapply weeksStep_NoDup; eassumption.
    + now rewrite fold_weeksStep_None.
Qed.

(** The keys of the buckets are distinct, whatever the dates. *)
Lemma availableWeeks_NoDup_keys (R : list AzureUpdate) (ws : list WeekEntry) :
  availableWeeks LocalTZA DateParse R = Some ws -> NoDup (map key ws).
Proof.
  unfold availableWeeks.
  destruct (fold_left _ R (Some [])) as [weeks |] eqn:E; [| discriminate].
  intros H. injection H as <-. rewrite map_map. simpl.
  apply fold_weeksStep_NoDup in E; [| constructor].
  apply (Permutation_NoDup (l := map fst weeks)); [| exact E].
  apply Permutation_map. symmetry. apply sortBy_perm.
Qed.

Lemma matchesWeek_iff (w : string) (ws : list WeekEntry) (r : AzureUpdate) :
  NoDup (map key ws) -> w = "all" \/ In w (map key ws) ->
  (matchesWeek DateParse w ws r = true <-> Spec.weekPredicate DateParse w ws r).
Proof.
  intros Hnd Hw. unfold matchesWeek, Spec.weekPredicate.
  destruct (String.eqb_spec w "all") as [-> | Hne]; simpl; [tauto |].
  destruct Hw as [Hw | Hw]; [contradiction |].
  apply in_map_iff in Hw as (b & Hk & Hb).
  rewrite (@find_key_Some _ _ _ Hnd Hb Hk), within_iff. split.
  - intros (t & Ht & Hin). right. now exists b, t.
  - intros [H | (b' & t & Hb' & Hk' & Ht & Hin)]; [contradiction |].
    exists t. split; [exact Ht |].
    assert (Hfind := @find_key_Some _ _ _ Hnd Hb' Hk').
    rewrite (@find_key_Some _ _ _ Hnd Hb Hk) in Hfind. now injection Hfind as ->.
Qed.

End FilterSpec.

(** C1, as amended: for the week buckets [ws] derived from the collection
    [R] and a week key that is ["all"] or the key of one of them, a record
    is in the filter's result exactly when it is in [R] and satisfies the
    three predicates: the search text is blank (empty or white space only)
    or case-insensitively a substring of the title or of the description;
    the category is absent or one of the record's; the week key is ["all"]
    or the record's date lies in the inclusive range of the bucket with
    that key.  The result keeps the order of [R]: it is [R] filtered by any
    boolean test that decides the three predicates. *)
Theorem filter_conjunctive (LocalTZA : Z) (DateParse : string -> option Z)
    (R : list AzureUpdate) (ws : list WeekEntry) (q : string)
    (c : option DomainCategory) (w : string) :
  availableWeeks LocalTZA DateParse R = Some ws ->
  w = "all" \/ In w (map key ws) ->
  (forall r,
     In r (filteredUpdates DateParse R q c w ws) <->
     In r R /\ Spec.searchPredicateBlank q r /\ Spec.categoryPredicate c r /\
     Spec.weekPredicate DateParse w ws r) /\
  (forall keep : AzureUpdate -> bool,
     (forall r, keep r = true <->
                Spec.searchPredicateBlank q r /\ Spec.categoryPredicate c r /\
                Spec.weekPredicate DateParse w ws r) ->
     filteredUpdates DateParse R q c w ws = filter keep R).
Proof.
  intros Hws Hw. apply availableWeeks_NoDup_keys in Hws.
  assert (Hp : forall r,
             matchesSearch q r && matchesDomain c r && matchesWeek DateParse w ws r = true <->
             Spec.searchPredicateBlank q r /\ Spec.categoryPredicate c r /\
             Spec.weekPredicate DateParse w ws r).
  { intros r.
    rewrite !andb_true_iff, matchesSearch_iff, matchesDomain_iff,
      (@matchesWeek_iff DateParse w ws r Hws Hw). tauto. }
  split.
  - intros r. unfold filteredUpdates. rewrite filter_In, Hp. tauto.
  - intros keep Hkeep. unfold filteredUpdates. apply filter_ext. intros r.
    apply eq_true_iff_eq. now rewrite Hp, Hkeep.
Qed.

Lemma filter_conjunctive_witness :
  availableWeeks 0 IsoDate.parse Sample.records = Some Sample.weeks /\
  In "2024-03-10T00:00:00.000Z" (map key Sample.weeks) /\
  (In Sample.record2
      (filteredUpdates IsoDate.parse Sample.records "COSMOS" (Some Databases)
         "2024-03-10T00:00:00.000Z" Sample.weeks) <->
   In Sample.record2 Sample.records /\
   Spec.searchPredicateBlank "COSMOS" Sample.record2 /\
   Spec.categoryPredicate (Some Databases) Sample.record2 /\
   Spec.weekPredicate IsoDate.parse "2024-03-10T00:00:00.000Z" Sample.weeks Sample.record2).
Proof.
  assert (H1 : availableWeeks 0 IsoDate.parse Sample.records = Some Sample.weeks)
    by reflexivity.
  assert (H2 : In "2024-03-10T00:00:00.000Z" (map key Sample.weeks))
    by (vm_compute; left; reflexivity).
  split; [exact H1 |]. split; [exact H2 |].
  exact (proj1 (filter_conjunctive 0 IsoDate.parse Sample.records "COSMOS"
                  (Some Databases) H1 (or_intror H2)) Sample.record2).
Defined.

(** C1, as the claim words it, fails: a search text of one space is not
    empty and occurs in neither text of the record [Sample.record3], yet the
    filter keeps the record. *)
Lemma filter_conjunctive_counterexample :
  exists ws,
    availableWeeks 0 IsoDate.parse [Sample.record3] = Some ws /\
    ~ (In Sample.record3 (filteredUpdates IsoDate.parse [Sample.record3] " " None "all" ws) <->
       In Sample.record3 [Sample.record3] /\
       Spec.searchPredicate " " Sample.record3 /\
       Spec.categoryPredicate None Sample.record3 /\
       Spec.weekPredicate IsoDate.parse "all" ws Sample.record3).
Proof.
  eexists. split; [vm_compute; reflexivity |].
  intros [H _].
  destruct H as (_ & Hs & _); [vm_compute; left; reflexivity |].
  destruct Hs as [Hs | [Hs | Hs]]; [discriminate Hs | |];
    apply caseInsensitiveSubstring_iff in Hs; vm_compute in Hs; discriminate Hs.
Qed.

(* ------------------------------------------------------------------ *)
(** ** Rendering through the memo cells *)

(** A hook whose stored value is the derivation [F] of its stored
    dependencies returns the derivation of the current ones, and stores
    such a value again. *)
Lemma useMemo_sound (D A : Type) (F : D -> option A) (deps : D)
    (stored : option (Cell D A)) (r : option (A * Cell D A)) :
  (forall c, stored = Some c -> F (cell_deps c) = Some (cell_value c)) ->
  useMemo (F deps) deps stored r ->
  match r with
  | Some (v, c) => F deps = Some v /\ F (cell_deps c) = Some (cell_value c)
  | None => F deps = None
  end.
Proof.
  intros Hc H. destruct H as [c Hd | stored].
  - pose proof (Hc c eq_refl) as H. rewrite Hd in H. split; [exact H |].
    now rewrite Hd.
  - destruct (F deps) as [v |] eqn:E; simpl; auto.
Qed.

Lemma useMemo_calculate_some (D A : Type) (calculate : option A) (deps : D)
    (stored : option (Cell D A)) (v : A) :
  calculate = Some v ->
  useMemo calculate deps stored (Some (v, {| cell_deps := deps; cell_value := v |})).
Proof. intros ->. exact (useMemo_calculate (Some v) deps stored). Qed.

Section RenderFacts.

Variable LocalTZA : Z.
Variable DateParse : string -> option Z.

Lemma render_sound (s : AppState) (m : Memos) (r : option (View * Memos)) :
  coherent LocalTZA DateParse m -> render LocalTZA DateParse s m r ->
  option_map fst r =
    derive LocalTZA DateParse (updates s) (searchQuery s) (selectedDomain s) (selectedWeek s) /\
  (forall v m', r = Some (v, m') -> coherent LocalTZA DateParse m').
Proof.
  intros (Hc1 & Hc2 & Hc3 & Hc4) H. unfold derive.
  destruct H as [d c1 ws c2 f c3 g c4 H1 H2 H3 H4 | d c1 H1 H2].
  - apply (useMemo_sound (fun u => Some (allDomains u))) in H1 as [Hd Hd'];
      [| intros c Hc; now rewrite (Hc1 c Hc)].
    apply (useMemo_sound (availableWeeks LocalTZA DateParse)) in H2 as [Hws Hws'];
      [| exact Hc2].
    set (F := fun x => Some (filteredUpdates DateParse (dep_updates x) (dep_searchQuery x)
                               (dep_selectedDomain x) (dep_selectedWeek x)
                               (dep_availableWeeks x))).
    assert (Hc3' : forall c, memo_filteredUpdates m = Some c ->
                             F (cell_deps c) = Some (cell_value c))
      by (intros c Hc; unfold F; now rewrite (Hc3 c Hc)).
    pose proof (@useMemo_sound _ _ F
                  {| dep_updates := updates s; dep_searchQuery := searchQuery s;
                     dep_selectedDomain := selectedDomain s;
                     dep_selectedWeek := selectedWeek s; dep_availableWeeks := ws |}
                  _ _ Hc3' H3) as [Hf Hf'].
    unfold F in Hf, Hf'.
    clear F Hc3'.
    apply (useMemo_sound (fun x => Some (groupedByMonth LocalTZA DateParse x)))
      in H4 as [Hg Hg']; [| intros c Hc; now rewrite (Hc4 c Hc)].
    cbn [dep_updates dep_searchQuery dep_selectedDomain dep_selectedWeek
         dep_availableWeeks] in Hf.
    injection Hd as <-. injection Hf as <-. injection Hg as <-.
    rewrite Hws. split; [reflexivity |].
    intros v m' Hr. injection Hr as <- <-.
    repeat split; cbn; intros c Hc; injection Hc as <-; congruence.
  - apply (useMemo_sound (availableWeeks LocalTZA DateParse)) in H2; [| exact Hc2].
    rewrite H2. split; [reflexivity | discriminate].
Qed.

Lemma reachable_coherent (m : Memos) :
  reachable LocalTZA DateParse m -> coherent LocalTZA DateParse m.
Proof.
  induction 1 as [| m s v m' _ IH Hr].
  - repeat split; cbn; discriminate.
  - exact (proj2 (render_sound IH Hr) v m' eq_refl).
Qed.

End RenderFacts.

(** C8: the derivations are deterministic and keep no hidden state.
    Whatever renders came before, a render returns the categories, week
    buckets, filtered records and month groups computed afresh from the
    record collection and the three criteria ([derive]); so two renders
    with equal inputs return equal outputs, whatever memo cells each one
    starts from and whatever the other fields of the state are. *)
Theorem render_deterministic (LocalTZA : Z) (DateParse : string -> option Z)
    (m1 m2 : Memos) (s1 s2 : AppState) (r1 r2 : option (View * Memos)) :
  reachable LocalTZA DateParse m1 -> reachable LocalTZA DateParse m2 ->
  render LocalTZA DateParse s1 m1 r1 -> render LocalTZA DateParse s2 m2 r2 ->
  updates s1 = updates s2 -> searchQuery s1 = searchQuery s2 ->
  selectedDomain s1 = selectedDomain s2 -> selectedWeek s1 = selectedWeek s2 ->
  option_map fst r1 = option_map fst r2 /\
  option_map fst r1 =
    derive LocalTZA DateParse (updates s1) (searchQuery s1) (selectedDomain s1)
      (selectedWeek s1).
Proof.
  intros Hm1 Hm2 Hr1 Hr2 Hu Hq Hd Hw.
  apply reachable_coherent in Hm1, Hm2.
  destruct (render_sound Hm1 Hr1) as [H1 _]. destruct (render_sound Hm2 Hr2) as [H2 _].
  split; [| exact H1]. rewrite H1, H2. now rewrite Hu, Hq, Hd, Hw.
Qed.

Lemma render_deterministic_witness :
  exists v1 v2 m',
    render 0 IsoDate.parse Sample.searching noMemos (Some (v1, m')) /\
    render 0 IsoDate.parse Sample.searchingTimeline m' (Some (v2, m')) /\
    Some v1 = Some v2 /\ view_filteredUpdates v2 = [Sample.record2].
Proof.
  assert (Hws : availableWeeks 0 IsoDate.parse Sample.records = Some Sample.weeks)
    by reflexivity.
  set (f := [Sample.record2]).
  assert (Hf : filteredUpdates IsoDate.parse Sample.records "cosmos" None "all" Sample.weeks
               = f) by (vm_compute; reflexivity).
  set (g := [("March 2024", [Sample.record2])]).
  assert (Hg : groupedByMonth 0 IsoDate.parse f = g) by (vm_compute; reflexivity).
  set (c1 := {| cell_deps := Sample.records; cell_value := allDomains Sample.records |}).
  set (c2 := {| cell_deps := Sample.records; cell_value := Sample.weeks |}).
  set (c3 := {| cell_deps :=
                  {| dep_updates := Sample.records; dep_searchQuery := "cosmos";
                     dep_selectedDomain := None; dep_selectedWeek := "all";
                     dep_availableWeeks := Sample.weeks |};
                cell_value := f |}).
  set (c4 := {| cell_deps := f; cell_value := g |}).
  set (v := {| view_allDomains := allDomains Sample.records;
               view_availableWeeks := Sample.weeks;
               view_filteredUpdates := f; view_groupedByMonth := g |}).
  set (m' := {| memo_allDomains := Some c1; memo_availableWeeks := Some c2;
                memo_filteredUpdates := Some c3; memo_groupedByMonth := Some c4 |}).
  assert (Hr1 : render 0 IsoDate.parse Sample.searching noMemos (Some (v, m'))).
  { apply render_done.
    - apply useMemo_calculate_some. reflexivity.
    - apply useMemo_calculate_some. exact Hws.
    - apply useMemo_calculate_some. exact (f_equal Some Hf).
    - apply useMemo_calculate_some. exact (f_equal Some Hg). }
  assert (Hr2 : render 0 IsoDate.parse Sample.searchingTimeline m' (Some (v, m'))).
  { apply render_done.
    - apply (useMemo_reuse _ c1). reflexivity.
    - apply (useMemo_reuse _ c2). reflexivity.
    - apply (useMemo_reuse _ c3). reflexivity.
    - apply (useMemo_reuse _ c4). reflexivity. }
  exists v, v, m'. split; [exact Hr1 |]. split; [exact Hr2 |].
  split; [| reflexivity].
  exact (proj1 (render_deterministic (reachable_mount 0 IsoDate.parse)
                  (reachable_render (reachable_mount 0 IsoDate.parse) Hr1) Hr1 Hr2
                  eq_refl eq_refl eq_refl eq_refl)).
Defined.

(* ------------------------------------------------------------------ *)
(** ** Further properties of the filter *)

Lemma string_app_assoc (a b c : string) : ((a ++ b) ++ c)%string = (a ++ b ++ c)%string.
Proof. induction a as [| x a IH]; simpl; [reflexivity | now rewrite IH]. Qed.

Lemma allWhiteSpace_app (a b : string) :
  JsString.allWhiteSpace (a ++ b) = JsString.allWhiteSpace a && JsString.allWhiteSpace b.
Proof.
  induction a as [| x a IH]; simpl; [reflexivity |].
  now rewrite IH, andb_assoc.
Qed.

Lemma includes_part (s x q y : string) :
  JsString.includes s (x ++ q ++ y) = true -> JsString.includes s q = true.
Proof.
  rewrite !includes_iff. intros (pre & post & ->).
  exists (pre ++ x)%string, (y ++ post)%string.
  now rewrite !string_app_assoc.
Qed.

Lemma matchesSearch_part (x q y : string) (u : AzureUpdate) :
  matchesSearch (x ++ q ++ y) u = true -> matchesSearch q u = true.
Proof.
  unfold matchesSearch. rewrite !trim_eqb_empty, !allWhiteSpace_app, !toLowerCase_app.
  rewrite !orb_true_iff, !andb_true_iff.
  intros [[(_ & H & _) | H] | H]; eauto using includes_part.
Qed.

Lemma filter_filter (A : Type) (f g : A -> bool) (l : list A) :
  filter g (filter f l) = filter (fun x => f x && g x) l.
Proof.
  induction l as [| x l IH]; simpl; [reflexivity |].
  destruct (f x); simpl; [destruct (g x); now rewrite IH | exact IH].
Qed.

Lemma hasActiveFilters_false (s : AppState) :
  hasActiveFilters s = false ->
  JsString.allWhiteSpace (searchQuery s) = true /\ selectedDomain s = None /\
  selectedWeek s = "all".
Proof.
  unfold hasActiveFilters. rewrite trim_eqb_empty.
  destruct (JsString.allWhiteSpace (searchQuery s)), (selectedDomain s);
    simpl; try discriminate.
  destruct (String.eqb_spec (selectedWeek s) "all"); simpl; [auto | discriminate].
Qed.

(** X1: when no filter is active the filter keeps every record: the
    result is the collection itself, whatever the week buckets. *)
Theorem no_active_filters_shows_all (DateParse : string -> option Z) (s : AppState)
    (ws : list WeekEntry) :
  hasActiveFilters s = false ->
  filteredUpdates DateParse (updates s) (searchQuery s) (selectedDomain s) (selectedWeek s) ws
  = updates s.
Proof.
  intros H. apply hasActiveFilters_false in H as (Hq & -> & ->).
  unfold filteredUpdates. apply filter_all. intros u _.
  now rewrite matchesSearch_blank.
Qed.

Lemma no_active_filters_shows_all_witness :
  let s := {| updates := Sample.records; searchQuery := "  "; selectedDomain := None;
              selectedWeek := "all"; viewMode := grid; showFilters := false |} in
  hasActiveFilters s = false /\
  filteredUpdates IsoDate.parse (updates s) (searchQuery s) (selectedDomain s)
    (selectedWeek s) Sample.weeks = Sample.records.
Proof.
  intros s. split; [reflexivity |].
  exact (@no_active_filters_shows_all IsoDate.parse s Sample.weeks eq_refl).
Defined.

(** X2: the three criteria can be applied one after the other: filtering
    by all of them is filtering by the search text, then by the category,
    then by the week.  Filtering a result again with the same criteria and
    buckets changes nothing, and a result is never longer than the
    collection. *)
Theorem filter_in_stages (DateParse : string -> option Z) (R : list AzureUpdate)
    (q : string) (c : option DomainCategory) (w : string) (ws : list WeekEntry) :
  filteredUpdates DateParse R q c w ws =
    filteredUpdates DateParse
      (filteredUpdates DateParse (filteredUpdates DateParse R q None "all" ws) "" c "all" ws)
      "" None w ws /\
  filteredUpdates DateParse (filteredUpdates DateParse R q c w ws) q c w ws =
    filteredUpdates DateParse R q c w ws /\
  (List.length (filteredUpdates DateParse R q c w ws) <= List.length R)%nat.
Proof.
  unfold filteredUpdates. rewrite !filter_filter. repeat split.
  - apply filter_ext. intros u.
    rewrite (@matchesSearch_blank "" u) by reflexivity.
    cbn [matchesDomain matchesWeek String.eqb negb].
    destruct (matchesSearch q u), (matchesDomain c u), (matchesWeek DateParse w ws u);
      reflexivity.
  - apply filter_ext. intros u.
    destruct (matchesSearch q u), (matchesDomain c u), (matchesWeek DateParse w ws u);
      reflexivity.
  - apply filter_length_le.
Qed.

(** X3: a longer search text selects no more records: every record that
    matches a search text matches each contiguous part of it. *)
Theorem search_part_matches_more (DateParse : string -> option Z) (R : list AzureUpdate)
    (x q y : string) (c : option DomainCategory) (w : string) (ws : list WeekEntry) :
  incl (filteredUpdates DateParse R (x ++ q ++ y) c w ws)
       (filteredUpdates DateParse R q c w ws).
Proof.
  intros u. unfold filteredUpdates. rewrite !filter_In, !andb_true_iff.
  intros (Hu & (Hs & Hd) & Hw). apply matchesSearch_part in Hs. auto.
Qed.

(* ------------------------------------------------------------------ *)
(** ** Further properties of the view state *)

(** X4: the badge shows a number from 1 to 3: whenever some filter is
    active, the count in the badge is at least 1. *)
Theorem filterBadge_range (s : AppState) (n : Z) :
  filterBadge s = Some n -> 1 <= n <= 3.
Proof.
  unfold filterBadge, hasActiveFilters, activeFilterCount.
  rewrite trim_eqb_empty.
  destruct (selectedDomain s) as [d |]; [rewrite domainString_truthy |];
    destruct (searchQuery s) as [| a q]; simpl;
    destruct (negb (selectedWeek s =? "all")%string); simpl;
    try destruct (JsString.isWhiteSpace a && JsString.allWhiteSpace q); simpl;
    intros H; try discriminate H; injection H as <-; lia.
Qed.

Lemma filterBadge_range_witness :
  filterBadge Sample.state = Some 3 /\ 1 <= 3 <= 3.
Proof.
  split; [reflexivity |].
  exact (@filterBadge_range Sample.state 3 eq_refl).
Defined.

(** X5: after [handleClearFilters] every record is shown: in the state it
    leads to, the filter returns the whole collection; and clearing again
    changes nothing. *)
Theorem clearFilters_shows_all (DateParse : string -> option Z) (s : AppState)
    (ws : list WeekEntry) :
  Forall
    (fun s' =>
       filteredUpdates DateParse (updates s') (searchQuery s') (selectedDomain s')
         (selectedWeek s') ws = updates s /\
       rendersAfter s' handleClearFilters = [s'])
    (rendersAfter s handleClearFilters).
Proof.
  repeat constructor. simpl. apply filter_all. intros u _.
  now rewrite matchesSearch_blank.
Qed.

(** X6: the category buttons select at most one category, and a click on
    the selected one clears it.  After a click on the button of [d] the
    selection is [d] exactly when [d] was not selected, and nothing but the
    selection has changed; a second click on the same button restores a
    state in which nothing or [d] was selected; and once [d] is selected,
    every record that the filter keeps carries [d]. *)
Theorem domain_button_toggles (DateParse : string -> option Z) (s : AppState)
    (d : DomainCategory) (ws : list WeekEntry) :
  let s1 := fold_left applySet (handleDomainClick s d) s in
  let s2 := fold_left applySet (handleDomainClick s1 d) s1 in
  (selectedDomain s1 = Some d <-> selectedDomain s <> Some d) /\
  (selectedDomain s1 = None <-> selectedDomain s = Some d) /\
  updates s1 = updates s /\ searchQuery s1 = searchQuery s /\
  selectedWeek s1 = selectedWeek s /\ viewMode s1 = viewMode s /\
  showFilters s1 = showFilters s /\
  (selectedDomain s = None \/ selectedDomain s = Some d -> s2 = s) /\
  (selectedDomain s1 = Some d ->
   forall u,
     In u (filteredUpdates DateParse (updates s1) (searchQuery s1) (selectedDomain s1)
             (selectedWeek s1) ws) ->
     In d (domain u)).
Proof.
  intros s1 s2. subst s1 s2. destruct s as [R q sel w vm sf].
  assert (Hkeeps : forall u,
            In u (filteredUpdates DateParse R q (Some d) w ws) -> In d (domain u)).
  { intros u Hu. unfold filteredUpdates in Hu.
    apply filter_In in Hu as (_ & Hu). rewrite !andb_true_iff in Hu.
    destruct Hu as ((_ & Hd) & _). apply matchesDomain_iff in Hd.
    destruct Hd as [Hd | (d0 & Hd & Hin)]; [discriminate | now injection Hd as ->]. }
  unfold handleDomainClick, isActive. cbn -[domainEqb filteredUpdates].
  destruct sel as [d' |]; [destruct (domainEqb d' d) eqn:E |];
    cbn -[domainEqb filteredUpdates];
    rewrite ?(proj2 (domainEqb_spec d d) eq_refl).
  - apply domainEqb_spec in E as ->.
    repeat split; try congruence; try discriminate.
  - assert (Hne : d' <> d)
      by (intros ->; rewrite (proj2 (domainEqb_spec d d) eq_refl) in E; discriminate).
    repeat split; try congruence; try discriminate; auto.
    intros [H | H]; [discriminate | congruence].
  - repeat split; try congruence; try discriminate; auto.
Qed.

Lemma countStatus_cons (name : string) (u : AzureUpdate) (R : list AzureUpdate) :
  countStatus name (u :: R) =
  (if String.eqb (statusString (status u)) name then 1 else 0) + countStatus name R.
Proof.
  unfold countStatus. cbn [filter].
  destruct (String.eqb (statusString (status u)) name); cbn [List.length]; lia.
Qed.

(** X7: the statistics count disjoint classes of the collection: the
    launched, preview and in-development counts and the numbers of
    deprecated and of retired records add up to the total, so the three
    counts shown never exceed it. *)
Theorem statistics_add_up (updates : list AzureUpdate) :
  total (statistics updates) =
    launched (statistics updates) + preview (statistics updates) +
    inDevelopment (statistics updates) +
    countStatus "Deprecated" updates + countStatus "Retired" updates /\
  0 <= launched (statistics updates) /\ 0 <= preview (statistics updates) /\
  0 <= inDevelopment (statistics updates) /\
  launched (statistics updates) + preview (statistics updates) +
    inDevelopment (statistics updates) <= total (statistics updates).
Proof.
  unfold statistics. cbn [total launched preview inDevelopment].
  induction updates as [| u R IH]; [cbn; lia |].
  rewrite !countStatus_cons.
  change (List.length (u :: R)) with (S (List.length R)). rewrite Nat2Z.inj_succ.
  destruct (status u); cbn [statusString];
    repeat match goal with
           | |- context [String.eqb ?a ?b] =>
               let v := eval vm_compute in (String.eqb a b) in
               change (String.eqb a b) with v
           end;
    lia.
Qed.

(* ------------------------------------------------------------------ *)
(** ** Further properties of the month groups and of the main area *)

Lemma filter_split_perm (A : Type) (p : A -> bool) (l : list A) :
  Permutation (filter p l ++ filter (fun x => negb (p x)) l) l.
Proof.
  induction l as [| x l IH]; simpl; [constructor |].
  destruct (p x); simpl.
  - now constructor.
  - rewrite <- Permutation_middle. now constructor.
Qed.

(** The classes of the keys, one after the other, rearrange [R]. *)
Lemma concat_classes_perm (A : Type) (f : A -> string) (ks : list string) (R : list A) :
  NoDup ks -> (forall u, In u R -> In (f u) ks) ->
  Permutation (List.concat (map (fun k => filter (fun u => String.eqb (f u) k) R) ks)) R.
Proof.
  intros Hnd. revert R. induction Hnd as [| k ks Hk Hnd IH]; intros R HR.
  - destruct R as [| u R]; [constructor |]. destruct (HR u (or_introl eq_refl)).
  - cbn [map List.concat].
    eapply Permutation_trans;
      [| apply (filter_split_perm (fun u => String.eqb (f u) k) R)].
    apply Permutation_app_head.
    eapply Permutation_trans;
      [| apply (IH (filter (fun u => negb (String.eqb (f u) k)) R))].
    + apply Permutation_refl'. f_equal. apply map_ext_in. intros k' Hk'.
      rewrite filter_filter. apply filter_ext. intros u.
      destruct (String.eqb_spec (f u) k') as [E | _]; [| now rewrite andb_false_r].
      rewrite andb_true_r. symmetry. apply negb_true_iff, String.eqb_neq. congruence.
    + intros u Hu. apply filter_In in Hu as (Hu & Hne).
      apply negb_true_iff, String.eqb_neq in Hne.
      destruct (HR u Hu) as [E | Hin]; [congruence | exact Hin].
Qed.

Lemma groupedByMonth_concat (LocalTZA : Z) (DateParse : string -> option Z)
    (R : list AzureUpdate) :
  Permutation (List.concat (map snd (groupedByMonth LocalTZA DateParse R))) R.
Proof.
  rewrite groupedByMonth_eq, map_map. cbn [snd].
  apply concat_classes_perm; [apply firstSeen_NoDup |].
  intros u Hu. apply firstSeen_In. now apply in_map.
Qed.

(** X8: the month groups, one after the other, are a rearrangement of the
    records grouped: every record is in the timeline once, none is added;
    and records of one group keep their relative order. *)
Theorem groupedByMonth_rearranges (LocalTZA : Z) (DateParse : string -> option Z)
    (R : list AzureUpdate) :
  Permutation (List.concat (map snd (groupedByMonth LocalTZA DateParse R))) R /\
  (forall k g, In (k, g) (groupedByMonth LocalTZA DateParse R) ->
     exists keep, g = filter keep R).
Proof.
  split; [apply groupedByMonth_concat |].
  intros k g H. rewrite groupedByMonth_eq in H.
  apply in_map_iff in H as (k' & H & _). injection H as _ <-.
  now exists (fun u => String.eqb (monthKey LocalTZA DateParse u) k').
Qed.

(** X9: in each view mode the main area shows a card for every filtered
    record, once: the cards are the filtered records in the grid, a
    rearrangement of them in the timeline, and none when the empty state is
    shown.  The empty state appears exactly when the filter keeps nothing,
    it offers to clear the filters exactly when some filter is active, and
    its message says that there are no updates only when the collection
    itself is empty. *)
Theorem mainContent_shows_filtered (LocalTZA : Z) (DateParse : string -> option Z)
    (s : AppState) (ws : list WeekEntry) :
  let f := filteredUpdates DateParse (updates s) (searchQuery s) (selectedDomain s)
             (selectedWeek s) ws in
  let c := mainContent s f (groupedByMonth LocalTZA DateParse f) in
  Permutation (cardsShown c) f /\
  (viewMode s = grid -> cardsShown c = f) /\
  (forall m b, c = EmptyState m b <-> f = [] /\
     b = hasActiveFilters s /\
     m = if b then "Try adjusting your filters or search query"
         else "No updates available at the moment") /\
  (forall b, c = EmptyState "No updates available at the moment" b -> updates s = []).
Proof.
  intros f c.
  assert (Hempty : forall m b, c = EmptyState m b <-> f = [] /\
            b = hasActiveFilters s /\
            m = if b then "Try adjusting your filters or search query"
                else "No updates available at the moment").
  { intros m b. subst c. unfold mainContent.
    destruct f as [| u f']; cbn [List.length Nat.eqb].
    - split.
      + intros H. injection H as <- <-. auto.
      + intros (_ & -> & ->). reflexivity.
    - split; [destruct (viewMode s); discriminate | intros (H & _); discriminate]. }
  split; [| split; [| split; [exact Hempty |]]].
  - subst c. unfold mainContent. destruct f as [| u f'] eqn:Ef; cbn [List.length Nat.eqb].
    + constructor.
    + destruct (viewMode s); cbn [cardsShown]; [reflexivity | apply groupedByMonth_concat].
  - intros Hg. subst c. unfold mainContent. rewrite Hg.
    destruct f as [| u f']; reflexivity.
  - intros b H. apply Hempty in H as (Hf & -> & Hm).
    destruct (hasActiveFilters s) eqn:Ha; [discriminate Hm |].
    apply hasActiveFilters_false in Ha as (Hq & Hd & Hw).
    subst f. rewrite Hd, Hw in Hf. unfold filteredUpdates in Hf.
    rewrite filter_all in Hf; [exact Hf |].
    intros u _. now rewrite matchesSearch_blank.
Qed.

(* ------------------------------------------------------------------ *)
(** ** Further properties of the derived lists *)

(** A strictly sorted list is determined by its members. *)
Lemma sorted_unique (A : Type) (lt : A -> A -> Prop) (l1 l2 : list A) :
  (forall x y, lt x y -> lt y x -> False) ->
  StronglySorted lt l1 -> StronglySorted lt l2 ->
  (forall x, In x l1 <-> In x l2) -> l1 = l2.
Proof.
  intros Hasym Hs1. revert l2.
  induction Hs1 as [| x l1 Hs1 IH Hx]; intros l2 Hs2 Hin.
  - destruct l2 as [| y l2]; [reflexivity |]. destruct (proj2 (Hin y) (or_introl eq_refl)).
  - destruct Hs2 as [| y l2 Hs2 Hy].
    + destruct (proj1 (Hin x) (or_introl eq_refl)).
    + rewrite Forall_forall in Hx, Hy.
      assert (Hxy : x = y).
      { destruct (proj1 (Hin x) (or_introl eq_refl)) as [E | Hx2]; [now symmetry |].
        destruct (proj2 (Hin y) (or_introl eq_refl)) as [E | Hy1]; [exact E |].
        destruct (Hasym x y (Hx y Hy1) (Hy x Hx2)). }
      subst y. f_equal. apply IH; [exact Hs2 |].
      intros z. split; intros Hz.
      * destruct (proj1 (Hin z) (or_intror Hz)) as [E | H]; [| exact H].
        subst z. destruct (Hasym x x (Hx x Hz) (Hx x Hz)).
      * destruct (proj2 (Hin z) (or_intror Hz)) as [E | H]; [| exact H].
        subst z. destruct (Hasym x x (Hy x Hz) (Hy x Hz)).
Qed.

Lemma allDomains_facts (R : list AzureUpdate) :
  (forall d, In d (allDomains R) <-> exists u, In u R /\ In d (domain u)) /\
  StronglySorted (fun a b => JsString.lt (domainString a) (domainString b) = true)
    (allDomains R).
Proof.
  unfold allDomains.
  set (cmp := fun x y => sortCompare (domainString x) (domainString y)).
  set (domains := fold_left _ R []).
  assert (Hnd : NoDup (sortBy cmp domains))
    by (apply sortBy_NoDup, collect_domains_NoDup; constructor).
  split.
  - intros d. rewrite sortBy_In. unfold domains. rewrite collect_domains_In.
    split; [intros [[] | H]; exact H | auto].
  - apply StronglySorted_strict
      with (le := fun a b => JsString.lt (domainString b) (domainString a) = false);
      [| | exact Hnd].
    + intros a b Hle Hne.
      destruct (JsString.lt (domainString a) (domainString b)) eqn:E; [reflexivity |].
      exfalso. apply Hne, domainString_inj, lt_total; assumption.
    + apply sortBy_sorted with (P := fun _ => True).
      * intros x y _ _. unfold cmp, sortCompare.
        destruct (JsString.lt (domainString x) (domainString y)) eqn:E1;
          [intros _; now apply lt_asym |].
        destruct (JsString.lt (domainString y) (domainString x)); [lia | reflexivity].
      * intros x y _ _. unfold cmp, sortCompare.
        destruct (JsString.lt (domainString x) (domainString y)) eqn:E1; [lia |].
        reflexivity.
      * intros x y z _ _ _. apply le_trans.
      * apply Forall_forall. intros; exact I.
Qed.

(** X10: the category list depends only on which categories occur: two
    collections in which the same categories occur have the same list; in
    particular the order of the records, and repeated records, do not
    matter. *)
Theorem allDomains_order_independent (R R' : list AzureUpdate) :
  ((forall d, (exists u, In u R /\ In d (domain u)) <->
              (exists u, In u R' /\ In d (domain u))) ->
   allDomains R = allDomains R') /\
  (Permutation R R' -> allDomains R = allDomains R') /\
  allDomains (R ++ R) = allDomains R.
Proof.
  assert (H : forall R1 R2,
            (forall d, (exists u, In u R1 /\ In d (domain u)) <->
                       (exists u, In u R2 /\ In d (domain u))) ->
            allDomains R1 = allDomains R2).
  { intros R1 R2 Hsame.
    destruct (allDomains_facts R1) as [Hin1 Hs1], (allDomains_facts R2) as [Hin2 Hs2].
    apply (sorted_unique
             (lt := fun a b => JsString.lt (domainString a) (domainString b) = true));
      try assumption.
    - intros x y Hxy Hyx. apply lt_asym in Hxy. congruence.
    - intros d. now rewrite Hin1, Hin2. }
  split; [apply H |]. split.
  - intros Hp. apply H. intros d. split; intros (u & Hu & Hd); exists u; split; auto.
    + now apply (Permutation_in _ Hp).
    + now apply (Permutation_in _ (Permutation_sym Hp)).
  - apply H. intros d. split; intros (u & Hu & Hd); exists u; split; auto.
    + apply in_app_iff in Hu. tauto.
    + apply in_app_iff. now left.
Qed.

(** X11: for valid dates the week buckets depend only on the records, not
    on their order: a rearranged collection has the same buckets, in the
    same order, and so has a collection with its records repeated. *)
Theorem availableWeeks_order_independent (LocalTZA : Z) (DateParse : string -> option Z)
    (R R' : list AzureUpdate) :
  validDates DateParse R ->
  (Permutation R R' ->
   availableWeeks LocalTZA DateParse R' = availableWeeks LocalTZA DateParse R) /\
  availableWeeks LocalTZA DateParse (R ++ R) = availableWeeks LocalTZA DateParse R.
Proof.
  intros HR.
  assert (H : forall R2, validDates DateParse R2 ->
            (forall u, In u R2 <-> In u R) ->
            availableWeeks LocalTZA DateParse R2 = availableWeeks LocalTZA DateParse R).
  { intros R2 HR2 Hsame.
    rewrite (availableWeeks_valid LocalTZA HR), (availableWeeks_valid LocalTZA HR2).
    destruct (weekStarts_spec LocalTZA DateParse R) as (Hin & _ & Hs).
    destruct (weekStarts_spec LocalTZA DateParse R2) as (Hin2 & _ & Hs2).
    f_equal. f_equal.
    apply (sorted_unique (lt := fun a b => b < a)); try assumption; [intros; lia |].
    intros s. rewrite Hin, Hin2.
    split; intros (u & Hu & Hsu); exists u; split; auto; now apply Hsame. }
  split.
  - intros Hp. apply H.
    + intros u Hu. apply HR. now apply (Permutation_in _ (Permutation_sym Hp)).
    + intros u. split; apply Permutation_in; [now apply Permutation_sym | exact Hp].
  - apply H.
    + intros u Hu. apply HR. apply in_app_iff in Hu. tauto.
    + intros u. rewrite in_app_iff. tauto.
Qed.

Lemma availableWeeks_order_independent_witness :
  validDates IsoDate.parse Sample.records /\
  availableWeeks 0 IsoDate.parse [Sample.record2; Sample.record1] =
  availableWeeks 0 IsoDate.parse Sample.records.
Proof.
  assert (H : validDates IsoDate.parse Sample.records).
  { intros u [<- | [<- | []]].
    - exists 1709596800000. split; [reflexivity |]. unfold maxTime, msPerDay. lia.
    - exists 1710201600000. split; [reflexivity |]. unfold maxTime, msPerDay. lia. }
  split; [exact H |].
  apply (proj1 (availableWeeks_order_independent 0 [Sample.record2; Sample.record1] H)).
  apply perm_swap.
Defined.

Lemma fold_weeksStep_invalid (LocalTZA : Z) (DateParse : string -> option Z)
    (R : list AzureUpdate) (u : AzureUpdate) (acc : option (list (string * WeekRange))) :
  In u R -> newDate DateParse (date u) = None ->
  fold_left (weeksStep LocalTZA DateParse) R acc = None.
Proof.
  revert acc. induction R as [| v R IH]; intros acc Hin Hu; [destruct Hin |].
  cbn [fold_left]. destruct Hin as [-> | Hin].
  - replace (weeksStep LocalTZA DateParse acc u) with (@None (list (string * WeekRange)));
      [apply fold_weeksStep_None |].
    unfold weeksStep. rewrite Hu. now destruct acc.
  - now apply IH.
Qed.

(** X12: a date that does not parse to a time value stops the derivation
    of the buckets: the week of an invalid date has an invalid start, an
    invalid end and the label ["Invalid Date - Invalid Date"], the ISO
    string of the start raises, and [availableWeeks] has no result,
    wherever in the collection the record stands. *)
Theorem availableWeeks_invalid_date (LocalTZA : Z) (DateParse : string -> option Z)
    (R : list AzureUpdate) (u : AzureUpdate) :
  In u R -> newDate DateParse (date u) = None ->
  getWeekRange LocalTZA (newDate DateParse (date u)) =
    {| start := None; end_ := None; label := "Invalid Date - Invalid Date" |} /\
  availableWeeks LocalTZA DateParse R = None.
Proof.
  intros Hin Hu. split.
  - now rewrite Hu.
  - unfold availableWeeks. now rewrite (fold_weeksStep_invalid LocalTZA DateParse R u _ Hin Hu).
Qed.

Lemma availableWeeks_invalid_date_witness :
  In Sample.undated [Sample.record1; Sample.undated; Sample.record2] /\
  newDate IsoDate.parse (date Sample.undated) = None /\
  availableWeeks 0 IsoDate.parse [Sample.record1; Sample.undated; Sample.record2] = None.
Proof.
  assert (H1 : In Sample.undated [Sample.record1; Sample.undated; Sample.record2])
    by (right; left; reflexivity).
  assert (H2 : newDate IsoDate.parse (date Sample.undated) = None) by reflexivity.
  split; [exact H1 |]. split; [exact H2 |].
  exact (proj2 (availableWeeks_invalid_date 0 IsoDate.parse _ _ H1 H2)).
Defined.

(** The statement below applies [getWeekRange] to a valid date; implicit
    arguments are not computed for it (that would unfold the calendar). *)
Unset Implicit Arguments.

(** X13: a week is one class of dates: every date between the start and
    the end of the week of a date has that same week (the same start, end
    and label). *)
Theorem getWeekRange_same_week (LocalTZA : Z) (t t' s e : Z) :
  - maxTime + 7 * msPerDay <= t <= maxTime - 7 * msPerDay ->
  - maxTime + 7 * msPerDay <= t' <= maxTime - 7 * msPerDay ->
  start (getWeekRange LocalTZA (Some t)) = Some s ->
  end_ (getWeekRange LocalTZA (Some t)) = Some e ->
  s <= t' <= e ->
  getWeekRange LocalTZA (Some t') = getWeekRange LocalTZA (Some t).
Proof.
  intros Ht Ht' Hs He Hr.
  pose proof (JsDateFacts.getWeekRange_valid LocalTZA Ht) as E.
  pose proof (JsDateFacts.getWeekRange_valid LocalTZA Ht') as E'.
  rewrite E in Hs, He. rewrite E, E'. clear E E'.
  pose proof (JsDateFacts.weekStart_bounds LocalTZA t') as Hb'.
  pose proof (JsDateFacts.weekStart_sunday LocalTZA t) as H1.
  pose proof (JsDateFacts.weekStart_sunday LocalTZA t') as H2.
  revert Hs He Hb' H1 H2.
  generalize (weekStart LocalTZA t) (weekStart LocalTZA t'). intros a b Hs He Hb' H1 H2.
  cbn [start end_ weekOf] in Hs, He. injection Hs as <-. injection He as <-.
  f_equal. unfold weekEnd in Hr.
  destruct (Z.lt_trichotomy b a) as [Hlt | [Heq | Hgt]]; [| exact Heq |].
  - pose proof (JsDateFacts.sundayMidnight_gap H2 H1 Hlt). unfold msPerDay in *. lia.
  - pose proof (JsDateFacts.sundayMidnight_gap H1 H2 Hgt). unfold msPerDay in *. lia.
Qed.

Lemma getWeekRange_same_week_witness :
  getWeekRange 0 (Some 1710000000000) = getWeekRange 0 (Some 1709596800000).
Proof.
  apply (@getWeekRange_same_week 0 1709596800000 1710000000000
           1709424000000 1710028799999).
  - unfold maxTime, msPerDay. lia.
  - unfold maxTime, msPerDay. lia.
  - vm_compute. reflexivity.
  - vm_compute. reflexivity.
  - lia.
Defined.

(** X19: at the upper edge of the range of time values the week has no
    end: when the last millisecond of the week of a valid date lies beyond
    the largest time value, [getWeekRange] returns the start with an
    invalid end, and the date does not pass the week test of its own
    week. *)
Theorem getWeekRange_end_out_of_range (LocalTZA : Z) (t : Z) :
  - maxTime + 7 * msPerDay <= t <= maxTime ->
  maxTime < weekEnd (weekStart LocalTZA t) ->
  getWeekRange LocalTZA (Some t) =
    {| start := Some (weekStart LocalTZA t);
       end_ := None;
       label := (toLocaleDateString_monthDay LocalTZA (Some (weekStart LocalTZA t)) ++
                 " - " ++ invalidDate)%string |} /\
  dateGe (Some t) (Some (weekStart LocalTZA t)) && dateLe (Some t) None = false.
Proof.
  intros Ht Hover. split; [| apply andb_false_r].
  pose proof (JsDateFacts.weekStart_bounds LocalTZA t) as Hb.
  pose proof (JsDateFacts.WeekDay_range (LocalTime LocalTZA t)) as Hw.
  assert (Hmax : maxTime = 8640000000000000) by reflexivity.
  assert (Hday : msPerDay = 86400000) by reflexivity.
  destruct (JsDateFacts.weekStart_sunday LocalTZA t) as [_ Hmid].
  unfold weekEnd in Hover.
  set (wd := WeekDay (LocalTime LocalTZA t)) in *.
  assert (Hs : weekStart LocalTZA t =
               (Day (LocalTime LocalTZA t) + - wd) * msPerDay + MakeTime 0 0 0 0 - LocalTZA)
    by (unfold weekStart, MakeTime; fold wd; ring).
  set (s := weekStart LocalTZA t) in *.
  assert (H1 : setDate LocalTZA (Some t)
                 (numSub (getDate LocalTZA (Some t)) (getDay LocalTZA (Some t))) =
               Some (t + - wd * msPerDay)).
  { unfold getDay, getDate, numSub. rewrite JsDateFacts.setDate_some. fold wd.
    rewrite <- JsDateFacts.TimeClip_in_range by lia. f_equal. ring. }
  assert (H2 : setHours LocalTZA (Some (t + - wd * msPerDay)) 0 0 0 0 = Some s).
  { rewrite JsDateFacts.setHours_some.
    replace (t + - wd * msPerDay + LocalTZA) with (LocalTime LocalTZA t + - wd * msPerDay)
      by (unfold LocalTime; ring).
    rewrite JsDateFacts.Day_shift, <- Hs. apply JsDateFacts.TimeClip_in_range. lia. }
  assert (H3 : setHours LocalTZA
                 (setDate LocalTZA (Some s) (numAdd (getDate LocalTZA (Some s)) (Some 6)))
                 23 59 59 999 = None).
  { unfold getDate, numAdd. rewrite JsDateFacts.setDate_some.
    replace (s + (DateFromTime (LocalTime LocalTZA s) + 6 - DateFromTime (LocalTime LocalTZA s))
                 * msPerDay) with (s + 6 * msPerDay) by ring.
    unfold TimeClip.
    destruct (Z.abs (s + 6 * msPerDay) >? maxTime); [reflexivity |].
    rewrite JsDateFacts.setHours_some.
    replace (s + 6 * msPerDay + LocalTZA) with (s + LocalTZA + 6 * msPerDay) by ring.
    rewrite JsDateFacts.Day_shift.
    pose proof (JsDateFacts.time_decompose (LocalTime LocalTZA s)) as Hdec.
    rewrite Hmid in Hdec. unfold LocalTime in Hdec.
    unfold TimeClip.
    replace (Z.abs _ >? maxTime) with true; [reflexivity |].
    symmetry. apply Z.gtb_lt.
    unfold MakeTime, msPerHour, msPerMinute, msPerSecond. lia. }
  unfold getWeekRange. cbv zeta. rewrite H1, H2, H3. reflexivity.
Qed.

Lemma getWeekRange_end_out_of_range_witness :
  end_ (getWeekRange 0 (Some maxTime)) = None.
Proof.
  assert (H1 : - maxTime + 7 * msPerDay <= maxTime <= maxTime)
    by (unfold maxTime, msPerDay; lia).
  assert (H2 : maxTime < weekEnd (weekStart 0 maxTime)) by (vm_compute; reflexivity).
  rewrite (proj1 (getWeekRange_end_out_of_range 0 maxTime H1 H2)). reflexivity.
Defined.

Set Implicit Arguments.

Lemma weeksStep_length (LocalTZA : Z) (DateParse : string -> option Z)
    (weeks weeks' : list (string * WeekRange)) (u : AzureUpdate) :
  weeksStep LocalTZA DateParse (Some weeks) u = Some weeks' ->
  (List.length weeks <= List.length weeks' <= List.length weeks + 1)%nat /\
  (weeks = [] -> weeks' <> []).
Proof.
  unfold weeksStep. destruct (toISOString _) as [k |]; [| discriminate].
  intros H. injection H as <-.
  destruct (mapHas weeks k) eqn:E; cbn [negb].
  - split; [lia |]. intros ->. discriminate E.
  - rewrite length_app. cbn [List.length]. split; [lia |].
    intros _ H. apply (f_equal (@List.length _)) in H. rewrite length_app in H.
    cbn in H. lia.
Qed.

Lemma fold_weeksStep_length (LocalTZA : Z) (DateParse : string -> option Z)
    (R : list AzureUpdate) (weeks weeks' : list (string * WeekRange)) :
  fold_left (weeksStep LocalTZA DateParse) R (Some weeks) = Some weeks' ->
  (List.length weeks <= List.length weeks' <= List.length weeks + List.length R)%nat.
Proof.
  revert weeks. induction R as [| u R IH]; intros weeks; cbn [fold_left List.length].
  - intros H. injection H as <-. lia.
  - destruct (weeksStep LocalTZA DateParse (Some weeks) u) as [weeks1 |] eqn:E.
    + intros H. apply IH in H. apply weeksStep_length in E as [E _]. lia.
    + now rewrite fold_weeksStep_None.
Qed.

(** X14: there are at most as many buckets as records, and a collection
    that is not empty has at least one bucket. *)
Theorem availableWeeks_count (LocalTZA : Z) (DateParse : string -> option Z)
    (R : list AzureUpdate) (ws : list WeekEntry) :
  availableWeeks LocalTZA DateParse R = Some ws ->
  (List.length ws <= List.length R)%nat /\ (R <> [] -> ws <> []).
Proof.
  unfold availableWeeks.
  destruct (fold_left _ R (Some [])) as [weeks |] eqn:E; [| discriminate].
  intros H. injection H as <-.
  assert (Hlen : forall l : list (string * WeekRange),
            List.length (map (fun e => {| key := fst e; week := snd e |})
                           (sortBy (fun a b =>
                                      cmpResult (numSub (getTime (start (snd b)))
                                                   (getTime (start (snd a))))) l))
            = List.length l)
    by (intros l; now rewrite length_map, sortBy_length).
  split.
  - rewrite Hlen. apply fold_weeksStep_length in E. cbn in E. lia.
  - intros HR Hws. apply (f_equal (@List.length _)) in Hws. rewrite Hlen in Hws.
    destruct R as [| u R]; [now apply HR |]. cbn [fold_left] in E.
    destruct (weeksStep LocalTZA DateParse (Some []) u) as [weeks1 |] eqn:E1;
      [| now rewrite fold_weeksStep_None in E].
    apply weeksStep_length in E1 as [_ E1]. apply fold_weeksStep_length in E.
    destruct weeks1; [now apply E1 |]. cbn in E, Hws. lia.
Qed.

Lemma availableWeeks_count_witness :
  availableWeeks 0 IsoDate.parse (Sample.records ++ [Sample.record3]) =
    Some Sample.weeks /\
  (List.length Sample.weeks <= 3)%nat.
Proof.
  assert (H : availableWeeks 0 IsoDate.parse (Sample.records ++ [Sample.record3]) =
              Some Sample.weeks) by (vm_compute; reflexivity).
  split; [exact H |].
  exact (proj1 (availableWeeks_count 0 IsoDate.parse _ H)).
Defined.

(* ------------------------------------------------------------------ *)
(** ** The card and the earlier revision *)

Lemma substring_0_split (n : nat) (s : string) :
  exists rest,
    s = (substring 0 n s ++ rest)%string /\
    String.length (substring 0 n s) = Nat.min n (String.length s).
Proof.
  revert s. induction n as [| n IH]; intros s.
  - exists s. destruct s; split; reflexivity.
  - destruct s as [| c s]; [exists EmptyString; split; reflexivity |].
    destruct (IH s) as (rest & Hs & Hl). exists rest. cbn [substring String.append].
    split; [now rewrite <- Hs | cbn; now rewrite Hl].
Qed.

(** X15: the collapsed card shows at most 183 characters.  A description
    of at most 180 characters is shown whole and without the "more" hint; a
    longer one is cut to its first 180 characters followed by three dots,
    something is left out, and the hint is shown.  An expanded card never
    shows the hint. *)
Theorem truncatedDescription_spec (u : AzureUpdate) :
  (String.length (truncatedDescription u) <= 183)%nat /\
  ((String.length (description u) <= 180)%nat ->
   truncatedDescription u = description u /\ showsMore false u = false) /\
  ((180 < String.length (description u))%nat ->
   exists kept rest,
     description u = (kept ++ rest)%string /\ String.length kept = 180%nat /\
     rest <> EmptyString /\
     truncatedDescription u = (kept ++ "...")%string /\
     String.length (truncatedDescription u) = 183%nat /\
     showsMore false u = true) /\
  showsMore true u = false.
Proof.
  unfold truncatedDescription, showsMore.
  destruct (substring_0_split 180 (description u)) as (rest & Hs & Hl).
  destruct (Nat.ltb_spec 180 (String.length (description u))) as [Hlt | Hle].
  - rewrite Nat.min_l in Hl by lia.
    assert (Hlen : String.length (substring 0 180 (description u) ++ "...") = 183%nat)
      by (rewrite JsDateFacts.length_append, Hl; reflexivity).
    repeat split; try lia.
    intros _. exists (substring 0 180 (description u)), rest.
    repeat split; auto.
    intros ->. apply (f_equal String.length) in Hs.
    rewrite JsDateFacts.length_append, Hl in Hs. cbn in Hs. lia.
  - repeat split; try lia; auto.
Qed.

(** X16: the week filter refines the earlier revision of [App], which had
    none.  With the week ["all"] the filter, the active-filter flag and
    the state after clearing are those of the earlier revision; with any
    week the filter keeps a part of what the earlier revision keeps. *)
Theorem revision1_refined (DateParse : string -> option Z) (s : AppState)
    (w : string) (ws : list WeekEntry) :
  filteredUpdates DateParse (updates s) (searchQuery s) (selectedDomain s) "all" ws =
    Revision1.filteredUpdates (updates s) (searchQuery s) (selectedDomain s) /\
  incl (filteredUpdates DateParse (updates s) (searchQuery s) (selectedDomain s) w ws)
       (Revision1.filteredUpdates (updates s) (searchQuery s) (selectedDomain s)) /\
  (selectedWeek s = "all" ->
   hasActiveFilters s = Revision1.hasActiveFilters s /\
   rendersAfter s handleClearFilters = rendersAfter s Revision1.handleClearFilters).
Proof.
  split; [| split].
  - unfold filteredUpdates, Revision1.filteredUpdates. apply filter_ext. intros u.
    cbn [matchesWeek String.eqb negb]. apply andb_true_r.
  - intros u. unfold filteredUpdates, Revision1.filteredUpdates.
    rewrite !filter_In, !andb_true_iff. tauto.
  - intros Hw. unfold hasActiveFilters, Revision1.hasActiveFilters, rendersAfter.
    rewrite Hw. split; [now rewrite orb_false_r |].
    destruct s; cbn in *. now subst.
Qed.

(* ------------------------------------------------------------------ *)
(** ** The week filter over the derived buckets *)

Lemma isoString_not_all (s : Z) : isoString s <> "all".
Proof.
  intros H. apply (f_equal String.length) in H. unfold isoString in H.
  repeat rewrite JsDateFacts.length_append in H.
  rewrite JsDateFacts.length_isoYear in H.
  destruct ((0 <=? YearFromTime s) && (YearFromTime s <=? 9999)); cbn in H; lia.
Qed.

Lemma NoDup_map_eq (A B : Type) (f : A -> B) (l : list A) (x y : A) :
  NoDup (map f l) -> In x l -> In y l -> f x = f y -> x = y.
Proof.
  induction l as [| a l IH]; cbn [map In]; [tauto |].
  intros Hnd Hx Hy Hf. inversion Hnd as [| ? ? Ha Hnd']; subst.
  destruct Hx as [-> | Hx], Hy as [-> | Hy]; auto.
  - exfalso. apply Ha. rewrite Hf. now apply in_map.
  - exfalso. apply Ha. rewrite <- Hf. now apply in_map.
Qed.

(** X17: the key of a bucket identifies it: in the buckets of any
    collection, two entries with the same key are the same entry, so the
    keys can serve as the values of the week selector. *)
Theorem availableWeeks_key_identifies (LocalTZA : Z) (DateParse : string -> option Z)
    (R : list AzureUpdate) (ws : list WeekEntry) (b1 b2 : WeekEntry) :
  availableWeeks LocalTZA DateParse R = Some ws ->
  In b1 ws -> In b2 ws -> key b1 = key b2 -> b1 = b2.
Proof.
  intros Hws. apply NoDup_map_eq. exact (availableWeeks_NoDup_keys _ _ _ Hws).
Qed.

Lemma availableWeeks_key_identifies_witness :
  availableWeeks 0 IsoDate.parse Sample.records = Some Sample.weeks /\
  In (entryOf 0 1709424000000) Sample.weeks /\
  nth 1 Sample.weeks (entryOf 0 0) = entryOf 0 1709424000000.
Proof.
  assert (H : availableWeeks 0 IsoDate.parse Sample.records = Some Sample.weeks)
    by reflexivity.
  assert (H1 : In (nth 1 Sample.weeks (entryOf 0 0)) Sample.weeks)
    by (vm_compute; right; left; reflexivity).
  assert (H2 : In (entryOf 0 1709424000000) Sample.weeks)
    by (vm_compute; right; left; reflexivity).
  split; [exact H |]. split; [exact H2 |].
  apply (@availableWeeks_key_identifies 0 IsoDate.parse Sample.records Sample.weeks _ _ H H1 H2).
  vm_compute. reflexivity.
Defined.

Section WeekFilter.

Variable LocalTZA : Z.
Variable DateParse : string -> option Z.

(** Over the derived buckets, the week test of the filter with the key
    of the week from [s] asks whether the week of the date starts at [s]. *)
Lemma matchesWeek_derived (starts : list Z) (s t : Z) (u : AzureUpdate) :
  NoDup (map key (map (entryOf LocalTZA) starts)) ->
  In s starts -> sundayMidnight LocalTZA s ->
  DateParse (date u) = Some t ->
  - maxTime + 7 * msPerDay <= t <= maxTime - 7 * msPerDay ->
  matchesWeek DateParse (isoString s) (map (entryOf LocalTZA) starts) u =
  Z.eqb (weekStart LocalTZA t) s.
Proof.
  intros Hnd Hs Hsun Hu Ht. unfold matchesWeek.
  destruct (String.eqb_spec (isoString s) "all") as [E | _];
    [now apply isoString_not_all in E |].
  cbn [negb].
  rewrite (@find_key_Some (isoString s) _ (entryOf LocalTZA s) Hnd (in_map _ _ _ Hs) eq_refl).
  unfold newDate. rewrite Hu.
  rewrite JsDateFacts.TimeClip_in_range by (unfold maxTime, msPerDay in *; lia).
  cbn [week entryOf start end_ weekOf dateGe dateLe].
  pose proof (JsDateFacts.weekStart_bounds LocalTZA t) as Hb.
  pose proof (JsDateFacts.weekStart_sunday LocalTZA t) as Hsun'.
  revert Hb Hsun'. generalize (weekStart LocalTZA t). intros s' Hb Hsun'.
  unfold weekEnd. apply eq_true_iff_eq.
  rewrite andb_true_iff, !Z.leb_le, Z.eqb_eq. split.
  - intros Hr. destruct (Z.lt_trichotomy s' s) as [Hlt | [Heq | Hgt]]; [| exact Heq |].
    + pose proof (JsDateFacts.sundayMidnight_gap Hsun' Hsun Hlt). lia.
    + pose proof (JsDateFacts.sundayMidnight_gap Hsun Hsun' Hgt). lia.
  - intros <-. lia.
Qed.

End WeekFilter.

(** X18: the weeks partition the collection.  For a collection with valid
    dates, selecting each derived week in turn shows every record exactly
    once: the results of the filter for the keys of the buckets, one after
    the other, are a rearrangement of the collection; no week is empty;
    and what a week shows are records whose date lies in its bucket. *)
Theorem week_filter_partitions (LocalTZA : Z) (DateParse : string -> option Z)
    (R : list AzureUpdate) :
  validDates DateParse R ->
  exists ws,
    availableWeeks LocalTZA DateParse R = Some ws /\
    Permutation
      (List.concat (map (fun b => filteredUpdates DateParse R "" None (key b) ws) ws)) R /\
    (forall b, In b ws -> filteredUpdates DateParse R "" None (key b) ws <> []) /\
    (forall b u, In b ws -> In u (filteredUpdates DateParse R "" None (key b) ws) ->
       exists t, newDate DateParse (date u) = Some t /\ Spec.withinBucket t b).
Proof.
  intros HR.
  pose proof (availableWeeks_valid LocalTZA HR) as Hws.
  destruct (weekStarts_spec LocalTZA DateParse R) as (Hin & Hnd & _).
  set (starts := sortBy _ _) in *.
  set (ws := map (entryOf LocalTZA) starts) in *.
  pose proof (availableWeeks_NoDup_keys _ _ _ Hws) as Hkeys.
  set (wk := fun u : AzureUpdate =>
               weekStart LocalTZA
                 match DateParse (date u) with Some t => t | None => 0 end).
  assert (Hsun : forall s, In s starts -> sundayMidnight LocalTZA s).
  { intros s Hs. apply Hin in Hs as (u & _ & ->). apply JsDateFacts.weekStart_sunday. }
  assert (Hrange : forall s, In s starts -> - maxTime <= s <= maxTime).
  { intros s Hs. apply Hin in Hs as (u & Hu & ->).
    destruct (HR u Hu) as (t & Ht & Hr). rewrite Ht.
    pose proof (JsDateFacts.weekStart_bounds LocalTZA t). unfold maxTime, msPerDay in *. lia. }
  assert (Hfilter : forall s, In s starts ->
            filteredUpdates DateParse R "" None (isoString s) ws =
            filter (fun u => String.eqb (isoString (wk u)) (isoString s)) R).
  { intros s Hs. unfold filteredUpdates. apply filter_ext_in. intros u Hu.
    destruct (HR u Hu) as (t & Ht & Hr).
    rewrite (@matchesSearch_blank "" u eq_refl). cbn [matchesDomain andb].
    unfold ws.
    rewrite (@matchesWeek_derived LocalTZA DateParse starts s t u Hkeys Hs (Hsun s Hs) Ht Hr).
    unfold wk. rewrite Ht. apply eq_true_iff_eq.
    rewrite Z.eqb_eq, String.eqb_eq. split; [now intros -> |].
    apply JsDateFacts.isoString_inj; [| now apply Hrange].
    apply Hrange, Hin. exists u. now rewrite Ht. }
  exists ws. split; [exact Hws |]. split; [| split].
  - unfold ws at 2. rewrite map_map. cbn [key entryOf].
    assert (Hmap : map (fun s => filteredUpdates DateParse R "" None (isoString s) ws) starts =
                   map (fun k => filter (fun u => String.eqb (isoString (wk u)) k) R)
                       (map isoString starts)).
    { rewrite map_map. apply map_ext_in. exact Hfilter. }
    rewrite Hmap. apply concat_classes_perm.
    + unfold ws in Hkeys. now rewrite map_map in Hkeys.
    + intros u Hu. apply in_map, Hin. now exists u.
  - intros b Hb. apply in_map_iff in Hb as (s & <- & Hs). cbn [key entryOf].
    rewrite (Hfilter s Hs). destruct (proj1 (Hin s) Hs) as (u & Hu & Hsu).
    intros Hnil.
    assert (Hu' : In u (filter (fun u => String.eqb (isoString (wk u)) (isoString s)) R)).
    { apply filter_In. split; [exact Hu |]. apply String.eqb_eq. unfold wk. now rewrite Hsu. }
    now rewrite Hnil in Hu'.
  - intros b u Hb Hu. pose proof Hb as Hb'.
    apply in_map_iff in Hb as (s & <- & Hs). cbn [key entryOf] in Hu.
    rewrite (Hfilter s Hs) in Hu. apply filter_In in Hu as (Hu & Heq).
    destruct (validDates_newDate _ HR Hu) as (t & Ht & Hnew & Hr).
    exists t. split; [exact Hnew |].
    apply String.eqb_eq, JsDateFacts.isoString_inj in Heq.
    + unfold wk in Heq. rewrite Ht in Heq. subst s.
      pose proof (JsDateFacts.weekStart_bounds LocalTZA t).
      exists (weekStart LocalTZA t), (weekEnd (weekStart LocalTZA t)).
      unfold weekEnd. repeat split; lia.
    + apply Hrange, Hin. now exists u.
    + now apply Hrange.
Qed.

Lemma week_filter_partitions_witness :
  validDates IsoDate.parse Sample.records /\
  exists ws, availableWeeks 0 IsoDate.parse Sample.records = Some ws /\
    Permutation
      (List.concat
         (map (fun b => filteredUpdates IsoDate.parse Sample.records "" None (key b) ws) ws))
      Sample.records.
Proof.
  assert (H : validDates IsoDate.parse Sample.records).
  { intros u [<- | [<- | []]].
    - exists 1709596800000. split; [reflexivity |]. unfold maxTime, msPerDay. lia.
    - exists 1710201600000. split; [reflexivity |]. unfold maxTime, msPerDay. lia. }
  split; [exact H |].
  destruct (week_filter_partitions 0 H) as (ws & Hws & Hp & _).
  exists ws. split; [exact Hws | exact Hp].
Defined.
